(** * pizzint-tracker: the ingestion pipeline and its collectors

    A shallow embedding of the four collector variants of the repository
    (scripts/collect.js, scripts/continuous.js, api/collect.js and
    scripts/collect-manual.js) together with the properties their
    specification states about them.

    Numbers.  JavaScript numbers are IEEE doubles.  The development idealises
    the finite ones as exact rationals ([Qc]) and keeps the three special
    values the code can meet ([NaN] and the two infinities), so that
    [0 / 0] is [NaN] as in the source while sums and means are exact. *)

From Stdlib Require Import ZArith QArith Qabs Qcanon Qround List String Ascii Bool Lia Lqa.
Import ListNotations.

(** ** Results of fallible code: a value or a thrown [Error] with its message *)

Inductive result (A : Type) : Type :=
| Ok (a : A)
| Throw (msg : string).

Arguments Ok {A} a.
Arguments Throw {A} msg.

Definition bind {A B} (r : result A) (k : A -> result B) : result B :=
  match r with
  | Ok a => k a
  | Throw m => Throw m
  end.

Notation "x <- r ;; k" := (bind r (fun x => k))
  (at level 61, r at next level, right associativity).

Definition fails {A} (r : result A) : Prop := exists msg, r = Throw msg.

(** ** JavaScript numbers *)

Module JS.

Open Scope Qc_scope.

Inductive jsnum : Type :=
| Fin (q : Qc)
| PosInf
| NegInf
| NaN.

Definition Qc_ltb (a b : Qc) : bool :=
  match a ?= b with Lt => true | _ => false end.

Definition Qc_eqb (a b : Qc) : bool :=
  match a ?= b with Eq => true | _ => false end.

Definition ofZ (z : Z) : Qc := Q2Qc (inject_Z z).

(** [a + b] *)
Definition add (a b : jsnum) : jsnum :=
  match a, b with
  | NaN, _ | _, NaN => NaN
  | Fin x, Fin y => Fin (x + y)
  | PosInf, NegInf | NegInf, PosInf => NaN
  | PosInf, _ | _, PosInf => PosInf
  | NegInf, _ | _, NegInf => NegInf
  end.

(** unary minus *)
Definition neg (a : jsnum) : jsnum :=
  match a with
  | Fin x => Fin (- x)
  | PosInf => NegInf
  | NegInf => PosInf
  | NaN => NaN
  end.

(** [a - b] *)
Definition sub (a b : jsnum) : jsnum := add a (neg b).

(** [a / b]; a zero divisor is the positive zero (array lengths). *)
Definition div (a b : jsnum) : jsnum :=
  match a, b with
  | NaN, _ | _, NaN => NaN
  | Fin x, Fin y =>
      if Qc_eqb y 0 then
        if Qc_eqb x 0 then NaN
        else if Qc_ltb 0 x then PosInf else NegInf
      else Fin (x / y)
  | Fin _, _ => Fin 0
  | PosInf, Fin y => if Qc_ltb y 0 then NegInf else PosInf
  | NegInf, Fin y => if Qc_ltb y 0 then PosInf else NegInf
  | _, _ => NaN
  end.

(** [a < b]: false as soon as one side is [NaN] *)
Definition lt (a b : jsnum) : bool :=
  match a, b with
  | NaN, _ | _, NaN => false
  | Fin x, Fin y => Qc_ltb x y
  | NegInf, NegInf => false
  | NegInf, _ => true
  | _, PosInf => match a with PosInf => false | _ => true end
  | _, _ => false
  end.

(** [a > b] *)
Definition gt (a b : jsnum) : bool := lt b a.

(** A number read from a JSON document: a finite number or [null]. *)
Inductive json_num : Type :=
| JNull
| JNum (q : Qc).

(** [ToNumber]: in arithmetic and comparisons [null] counts as [0]. *)
Definition toNumber (v : json_num) : jsnum :=
  match v with
  | JNull => Fin 0
  | JNum q => Fin q
  end.

(** [JSON.stringify] writes [NaN] and the infinities as [null]. *)
Definition toJSON (n : jsnum) : json_num :=
  match n with
  | Fin q => JNum q
  | _ => JNull
  end.

(** [v || d] for a member [v] of a JSON object that may be absent
    ([undefined], here [None]), [null] or a number: the falsy values are
    [undefined], [null] and [0]. *)
Definition or_else (v : option json_num) (d : jsnum) : jsnum :=
  match v with
  | Some (JNum q) => if Qc_eqb q 0 then d else Fin q
  | Some JNull | None => d
  end.

(** Rounding of a rational to the nearest multiple of [1/100], ties away
    from zero (what [toFixed(2)] prints for an exact
    value, and what a DECIMAL(5,2) column stores). *)
Definition round2 (q : Qc) : Qc :=
  let n := Qfloor (Qabs q * inject_Z 100 + (1 # 2))%Q in
  if Qc_ltb q 0 then Q2Qc (inject_Z (- n) / inject_Z 100)%Q
  else Q2Qc (inject_Z n / inject_Z 100)%Q.

(** [parseFloat(x.toFixed(2))].  [toFixed] switches to the plain decimal
    expansion from 1e21 on, and prints the special values by name, which
    [parseFloat] reads back. *)
Definition toFixed2 (a : jsnum) : jsnum :=
  match a with
  | Fin q =>
      if Qc_ltb (Q2Qc (Qabs q)) (ofZ (10 ^ 21)) then Fin (round2 q) else Fin q
  | _ => a
  end.

End JS.

Import JS.

(** ** Instants and their ISO-8601 text

    The collectors never compute with instants: they read the clock
    ([new Date()]) and print it with [toISOString].  An instant is kept as
    the UTC calendar fields [toISOString] prints. *)

Record UTCTime : Type := mkUTC {
  year : Z;
  month : Z;
  day : Z;
  hours : Z;
  minutes : Z;
  seconds : Z;
  millis : Z
}.

Open Scope string_scope.
Open Scope Z_scope.

Definition digit (d : Z) : ascii := ascii_of_N (48 + Z.to_N d).

(** [pad w n]: the last [w] decimal digits of [n], most significant first. *)
Fixpoint pad (w : nat) (n : Z) : string :=
  match w with
  | O => EmptyString
  | S w' => String (digit ((n / 10 ^ Z.of_nat w') mod 10)) (pad w' n)
  end.

(** [Date.prototype.toISOString]: [YYYY-MM-DDTHH:mm:ss.sssZ], with the
    expanded six-digit signed year outside of 0..9999. *)
Definition toISOString (t : UTCTime) : string :=
  (if (0 <=? year t) && (year t <=? 9999) then pad 4 (year t)
   else (if year t <? 0 then "-" else "+") ++ pad 6 (Z.abs (year t)))
  ++ "-" ++ pad 2 (month t) ++ "-" ++ pad 2 (day t)
  ++ "T" ++ pad 2 (hours t) ++ ":" ++ pad 2 (minutes t)
  ++ ":" ++ pad 2 (seconds t) ++ "." ++ pad 3 (millis t) ++ "Z".



(** Chronological order of instants (ORDER BY on a TIMESTAMPTZ column). *)
Definition timeKey (t : UTCTime) : list Z :=
  [year t; month t; day t; hours t; minutes t; seconds t; millis t].

Fixpoint lex_ltb (a b : list Z) : bool :=
  match a, b with
  | x :: a', y :: b' => (x <? y) || ((x =? y) && lex_ltb a' b')
  | [], _ :: _ => true
  | _, [] => false
  end.

Definition time_ltb (a b : UTCTime) : bool := lex_ltb (timeKey a) (timeKey b).

(** [s], truthy as a JavaScript string: not empty. *)
Definition truthy (s : string) : bool :=
  match s with EmptyString => false | _ => true end.

(** ** Time classifier

    [getDCTimeInfo] prints the instant in the America/New_York zone and
    reads the text back as a [Date]; [dcDate] is that second date, of which
    the code reads [getHours()] and [getDay()]. *)

Record DCDate : Type := mkDC {
  getHours : Z;
  getDay : Z
}.

Record DCInfo : Type := mkInfo {
  hour : Z;
  weekday : Z;
  isOvertime : bool;
  isWeekend : bool
}.

Definition getDCTimeInfo (dcDate : DCDate) : DCInfo :=
  let hour := getHours dcDate in
  let weekday := getDay dcDate in
  {| hour := hour;
     weekday := weekday;
     isOvertime := (hour >=? 18) || (hour <? 6);
     isWeekend := (weekday =? 0) || (weekday =? 6) |}.

(** ** Upstream payload *)

Record Location : Type := mkLoc {
  current_popularity : option json_num
}.

(** [json.data]: missing or otherwise falsy, a truthy value that is not an
    array, or an array of location records. *)
Inductive Payload : Type :=
| DataFalsy
| DataNotArray
| DataArray (locs : list Location).

(** What [fetch] and [response.json()] give: an exception, or the parsed
    body with its [success] flag. *)
Inductive Upstream : Type :=
| FetchFailed (msg : string)
| Response (success : bool) (data : Payload).

(** [if (!json.success || !json.data) throw new Error('Invalid API response')] *)
Definition checkResponse (u : Upstream) : result Payload :=
  match u with
  | FetchFailed msg => Throw msg
  | Response success data =>
      if negb success || match data with DataFalsy => true | _ => false end
      then Throw "Invalid API response"
      else Ok data
  end.

(** [pops.reduce((a, b) => a + b, 0) / pops.length] *)
Definition mean (pops : list jsnum) : jsnum :=
  JS.div (fold_left JS.add pops (Fin 0%Qc))
         (Fin (ofZ (Z.of_nat (List.length pops)))).

Definition popularities (locs : list Location) : list jsnum :=
  map (fun loc => or_else (current_popularity loc) (Fin 0%Qc)) locs.

(** ** The spike rule, shared by all variants:
    [change > 20 || (currentIndex > 70 && prev < 55)] *)

Definition spikeRule (prev currentIndex : jsnum) : bool :=
  let change := JS.sub currentIndex prev in
  JS.gt change (Fin (ofZ 20))
  || (JS.gt currentIndex (Fin (ofZ 70)) && JS.lt prev (Fin (ofZ 55))).

(** ** Outcome of one tick *)

Inductive Outcome : Type :=
| Success (index : jsnum) (spike : bool)
| Skipped
| Error (msg : string).

(** [l.slice(-n)]: the last [n] elements of [l], in order. *)
Definition slice_last {A} (n : Z) (l : list A) : list A :=
  skipn (Z.to_nat (Z.max (Z.of_nat (List.length l) - n) 0)) l.

(** [l[l.length - 1]] for a non-empty [l]. *)
Definition last_elt {A} (l : list A) : option A :=
  nth_error l (List.length l - 1).

(** ** Flat-file backend: scripts/collect-manual.js *)

Module CollectManual.

Record Reading : Type := mkReading {
  timestamp : string;
  index_value : json_num;
  dc_hour : Z;
  dc_weekday : Z;
  is_overtime : bool;
  is_weekend : bool
}.

Record Spike : Type := mkSpike {
  spike_timestamp : string;
  index_from : json_num;
  index_to : json_num;
  change_amount : json_num;
  spike_is_overtime : bool;
  spike_is_weekend : bool
}.

(** The JSON document of data/readings.json. *)
Record Database : Type := mkDb {
  readings : list Reading;
  spikes : list Spike;
  lastUpdate : option string
}.

(** The data file as the script finds it: absent, not parseable as JSON,
    parseable but without a [readings] array (for instance [{}]), or a
    stored database. *)
Inductive DataFile : Type :=
| NoFile
| NotJson
| WrongShape
| Stored (db : Database).

(** One run reads the clock, the upstream API and the DC wall clock, and
    writes the file at the end; [writable] tells whether [writeFileSync]
    goes through. *)
Record Tick : Type := mkTick {
  clock : UTCTime;
  upstream : Upstream;
  dcDate : DCDate;
  writable : bool
}.

Definition calculateIndex (data : Payload) : result jsnum :=
  match data with
  | DataArray locs => Ok (mean (popularities locs))
  | _ => Throw "Invalid data array"
  end.

(** The [db] variable after the inner [try]/[catch]: the default when
    reading or parsing threw, the parsed document otherwise.  A document
    without [readings] is kept by the inner [catch] and makes the next
    [db.readings.length] throw. *)
Definition load (file : DataFile) : result Database :=
  match file with
  | NoFile | NotJson => Ok {| readings := []; spikes := []; lastUpdate := None |}
  | WrongShape => Throw "Cannot read properties of undefined (reading 'length')"
  | Stored db => Ok db
  end.

(** [lastTs && lastTs.substring(0, 16) === newReading.timestamp.substring(0, 16)];
    [lastTs] is [null] ([None]) when no reading is stored. *)
Definition isDuplicate (lastTs : option string) (ts : string) : bool :=
  match lastTs with
  | Some l => truthy l && String.eqb (substring 0 16 l) (substring 0 16 ts)
  | None => false
  end.

Definition lastTs (db : Database) : option string :=
  match last_elt (readings db) with
  | Some r => Some (timestamp r)
  | None => None
  end.

(** [newReading] *)
Definition newReadingOf (now : string) (index : jsnum) (dcInfo : DCInfo)
  : Reading :=
  {| timestamp := now;
     index_value := toJSON (toFixed2 index);
     dc_hour := hour dcInfo;
     dc_weekday := weekday dcInfo;
     is_overtime := isOvertime dcInfo;
     is_weekend := isWeekend dcInfo |}.

(** The object pushed on [db.spikes]. *)
Definition spikeOf (newReading : Reading) (prev : json_num) (change : jsnum)
  : Spike :=
  {| spike_timestamp := timestamp newReading;
     index_from := prev;
     index_to := index_value newReading;
     change_amount := toJSON change;
     spike_is_overtime := is_overtime newReading;
     spike_is_weekend := is_weekend newReading |}.

(** [if (db.spikes.length > 100) db.spikes = db.spikes.slice(-100)] *)
Definition trimSpikes (l : list Spike) : list Spike :=
  if 100 <? Z.of_nat (List.length l) then slice_last 100 l else l.

(** [if (db.readings.length > 10000) db.readings = db.readings.slice(-10000)] *)
Definition trimReadings (l : list Reading) : list Reading :=
  if 10000 <? Z.of_nat (List.length l) then slice_last 10000 l else l.

(** The spike check: the spikes list after it and [spikeDetected].
    [indexValue] is [newReading.index_value] as the running script holds it.
    [prev.toFixed(0)] in the log line throws when the stored value is
    [null]. *)
Definition checkSpike (db : Database) (newReading : Reading) (indexValue : jsnum)
  : result (list Spike * bool) :=
  match last_elt (readings db) with
  | None => Ok (spikes db, false)
  | Some r =>
      let prev := index_value r in
      let change := JS.sub indexValue (toNumber prev) in
      if spikeRule (toNumber prev) indexValue then
        match prev with
        | JNull => Throw "Cannot read properties of null (reading 'toFixed')"
        | JNum _ =>
            Ok (trimSpikes (spikes db ++ [spikeOf newReading prev change]), true)
        end
      else Ok (spikes db, false)
  end.

(** The body of the outer [try]. *)
Definition run (tk : Tick) (file : DataFile) : result (Outcome * DataFile) :=
  let now := toISOString (clock tk) in
  data <- checkResponse (upstream tk) ;;
  index <- calculateIndex data ;;
  let dcInfo := getDCTimeInfo (dcDate tk) in
  db <- load file ;;
  let newReading := newReadingOf now index dcInfo in
  if isDuplicate (lastTs db) (timestamp newReading) then Ok (Skipped, file)
  else
    sp <- checkSpike db newReading (toFixed2 index) ;;
    let kept := trimReadings (readings db ++ [newReading]) in
    if writable tk then
      Ok (Success (toFixed2 index) (snd sp),
          Stored {| readings := kept;
                    spikes := fst sp;
                    lastUpdate := Some (timestamp newReading) |})
    else Throw "ENOENT: no such file or directory".

(** [collect]: the status returned and the data file left behind. *)
Definition collect (tk : Tick) (file : DataFile) : Outcome * DataFile :=
  match run tk file with
  | Ok r => r
  | Throw msg => (Error msg, file)
  end.

End CollectManual.

(** ** Durable-store backend: the tables of supabase-schema.sql

    [pizza_readings] with its DECIMAL(5,2) NOT NULL [index_value] and the
    unique index on [DATE_TRUNC('minute', timestamp)]; [pizza_spikes] keeps
    the spike objects as the collectors send them.  The instant a row holds
    is the one whose [toISOString] text the collector sent.  The SELECT
    queries and the insert of a spike are taken to go through: the
    collectors do not look at their errors. *)

Module Supabase.

Record Reading : Type := mkReading {
  timestamp : UTCTime;
  index_value : Qc;
  dc_hour : Z;
  dc_weekday : Z;
  is_overtime : bool;
  is_weekend : bool
}.

Record Spike : Type := mkSpike {
  spike_timestamp : UTCTime;
  index_from : jsnum;
  index_to : jsnum;
  change_amount : jsnum;
  spike_is_overtime : bool;
  spike_is_weekend : bool
}.

Record DB : Type := mkDB {
  pizza_readings : list Reading;
  pizza_spikes : list Spike
}.

(** The object given to [.insert] on [pizza_readings]. *)
Record NewReading : Type := mkNew {
  new_timestamp : UTCTime;
  new_index_value : jsnum;
  new_dc_hour : Z;
  new_dc_weekday : Z;
  new_is_overtime : bool;
  new_is_weekend : bool
}.

Definition bucket_eqb (a b : UTCTime) : bool :=
  (year a =? year b) && (month a =? month b) && (day a =? day b)
  && (hours a =? hours b) && (minutes a =? minutes b).

(** The SQLSTATE of a rejected insert. *)
Definition not_null_violation := "23502".
Definition numeric_value_out_of_range := "22003".
Definition unique_violation := "23505".

(** INSERT INTO pizza_readings: the request body is JSON, so a [NaN] index
    arrives as [null]; the value is rounded to two decimals and must stay
    below 1000 in absolute value; the minute of the timestamp must be new. *)
Definition insertReading (r : NewReading) (db : DB) : string + DB :=
  match toJSON (new_index_value r) with
  | JNull => inl not_null_violation
  | JNum q =>
      let v := round2 q in
      if negb (Qc_ltb (Q2Qc (Qabs v)) (ofZ 1000)) then inl numeric_value_out_of_range
      else if existsb (fun x => bucket_eqb (timestamp x) (new_timestamp r))
                      (pizza_readings db)
      then inl unique_violation
      else inr {| pizza_readings :=
                    (pizza_readings db ++
                     [ {| timestamp := new_timestamp r;
                          index_value := v;
                          dc_hour := new_dc_hour r;
                          dc_weekday := new_dc_weekday r;
                          is_overtime := new_is_overtime r;
                          is_weekend := new_is_weekend r |} ])%list;
                  pizza_spikes := pizza_spikes db |}
  end.

Definition insertSpike (s : Spike) (db : DB) : DB :=
  {| pizza_readings := pizza_readings db;
     pizza_spikes := (pizza_spikes db ++ [s])%list |}.

(** ORDER BY timestamp DESC *)
Fixpoint insert_desc (r : Reading) (l : list Reading) : list Reading :=
  match l with
  | [] => [r]
  | x :: l' =>
      if time_ltb (timestamp x) (timestamp r) then r :: l
      else x :: insert_desc r l'
  end.

Definition order_desc (rows : list Reading) : list Reading :=
  fold_right insert_desc [] rows.

(** [.select('index_value').order('timestamp', { ascending: false }).limit(k)] *)
Definition selectLatest (k : nat) (db : DB) : list Qc :=
  map index_value (firstn k (order_desc (pizza_readings db))).

End Supabase.

(** The clock and inputs of one run of a database-backed collector:
    [insertClock] is the [new Date()] of the reading that is inserted,
    [spikeClock] the [new Date()] of the spike object. *)
Record DbTick : Type := mkDbTick {
  db_upstream : Upstream;
  db_dcDate : DCDate;
  insertClock : UTCTime;
  spikeClock : UTCTime
}.

Definition newReadingOf (tk : DbTick) (index : jsnum) (dcInfo : DCInfo)
  : Supabase.NewReading :=
  {| Supabase.new_timestamp := insertClock tk;
     Supabase.new_index_value := index;
     Supabase.new_dc_hour := hour dcInfo;
     Supabase.new_dc_weekday := weekday dcInfo;
     Supabase.new_is_overtime := isOvertime dcInfo;
     Supabase.new_is_weekend := isWeekend dcInfo |}.

(** ** scripts/collect.js (api/collect.js is the same code) *)

Module Collect.

Import Supabase.

Definition calculateIndex (data : Payload) : result jsnum :=
  match data with
  | DataArray locs => Ok (mean (popularities locs))
  | _ => Throw "data.map is not a function"
  end.

Definition detectSpike (db : DB) (clock : UTCTime) (currentIndex : jsnum)
    (dcInfo : DCInfo) : option Spike :=
  match selectLatest 1 db with
  | [] => None
  | prev :: _ =>
      let change := JS.sub currentIndex (Fin prev) in
      if spikeRule (Fin prev) currentIndex then
        Some {| spike_timestamp := clock;
                index_from := Fin prev;
                index_to := currentIndex;
                change_amount := change;
                spike_is_overtime := isOvertime dcInfo;
                spike_is_weekend := isWeekend dcInfo |}
      else None
  end.

Definition run (tk : DbTick) (db : DB) : result (Outcome * DB) :=
  data <- checkResponse (db_upstream tk) ;;
  index <- calculateIndex data ;;
  let dcInfo := getDCTimeInfo (db_dcDate tk) in
  match insertReading (newReadingOf tk index dcInfo) db with
  | inl code =>
      if String.eqb code unique_violation then Ok (Skipped, db)
      else Throw code
  | inr db1 =>
      let spike := detectSpike db1 (spikeClock tk) index dcInfo in
      match spike with
      | Some s => Ok (Success index true, insertSpike s db1)
      | None => Ok (Success index false, db1)
      end
  end.

Definition collect (tk : DbTick) (db : DB) : Outcome * DB :=
  match run tk db with
  | Ok r => r
  | Throw msg => (Error msg, db)
  end.

End Collect.

(** ** scripts/continuous.js

    Its [collect] returns nothing and only logs; the outcome below is what
    the log line of the run says. *)

Module Continuous.

Import Supabase.

Definition calculateIndex := Collect.calculateIndex.

Definition run (tk : DbTick) (db : DB) : result (Outcome * DB) :=
  data <- checkResponse (db_upstream tk) ;;
  index <- calculateIndex data ;;
  let dcInfo := getDCTimeInfo (db_dcDate tk) in
  match insertReading (newReadingOf tk index dcInfo) db with
  | inl code =>
      if String.eqb code unique_violation then Ok (Skipped, db)
      else Throw code
  | inr db1 =>
      match selectLatest 2 db1 with
      | _ :: prev :: _ =>
          let change := JS.sub index (Fin prev) in
          if spikeRule (Fin prev) index then
            Ok (Success index true,
                insertSpike {| spike_timestamp := spikeClock tk;
                               index_from := Fin prev;
                               index_to := index;
                               change_amount := change;
                               spike_is_overtime := isOvertime dcInfo;
                               spike_is_weekend := isWeekend dcInfo |} db1)
          else Ok (Success index false, db1)
      | _ => Ok (Success index false, db1)
      end
  end.

Definition collect (tk : DbTick) (db : DB) : Outcome * DB :=
  match run tk db with
  | Ok r => r
  | Throw msg => (Error msg, db)
  end.

End Continuous.

(** ** Vocabulary of the properties *)

(** The index a tick computes from its payload. *)
Definition indexOf (locs : list Location) : jsnum := mean (popularities locs).

(** The row a database collector sends for a payload. *)
Definition sentReading (tk : DbTick) (locs : list Location) : Supabase.NewReading :=
  newReadingOf tk (indexOf locs) (getDCTimeInfo (db_dcDate tk)).

(** The popularity of a record as the specification words it: the value of
    [current_popularity] when present and not null, else 0. *)
Definition popularityOrZero (loc : Location) : Qc :=
  match current_popularity loc with
  | Some (JNum q) => q
  | Some JNull | None => 0%Qc
  end.

(** The arithmetic mean of the specification: the sum of the values over
    their number. *)
Definition arithmeticMean (xs : list Qc) : Qc :=
  (fold_right Qcplus 0 xs / ofZ (Z.of_nat (List.length xs)))%Qc.


(** The data files the collector can meet when it alone maintains the file:
    no file or an unreadable one at first, then what each tick leaves. *)
Inductive reachable : CollectManual.DataFile -> Prop :=
| reachable_NoFile : reachable CollectManual.NoFile
| reachable_NotJson : reachable CollectManual.NotJson
| reachable_tick (tk : CollectManual.Tick) (file : CollectManual.DataFile) :
    reachable file -> reachable (snd (CollectManual.collect tk file)).


(** ** api/collect.js: the serverless handler

    [collectData] of api/collect.js is the code of [Collect.collect].  The
    handler sees the CRON_SECRET variable of the environment and the
    Authorization header of the request, each absent ([None]) or a string,
    and answers with a status code and a JSON body. *)

Module Api.





End Api.

(** ** scripts/collect-manual.js: the check of the Node version

    [parseInt(process.version.slice(1).split('.')[0]) < 18] makes the script
    exit.  Strings are sequences of code units below 256. *)

Module NodeVersion.












End NodeVersion.

(** ** supabase-schema.sql: the view [readings_with_forecast]

    The view joins every reading with the pattern row of its hour and of
    its weekday (LEFT JOIN on a primary key: the row of that key when there
    is one) and blends the two averages with the average of all readings.
    A column that may be NULL is an [option]; arithmetic on a NULL gives
    NULL.  AVG is taken as the exact mean. *)

Module Views.

(** The columns of [hourly_patterns] and [weekday_patterns] the view reads. *)
Record Pattern : Type := mkPattern {
  key : Z;
  avg_index : option Qc;
  std_dev : option Qc
}.

Record ForecastRow : Type := mkForecast {
  reading : Supabase.Reading;
  hourly_forecast : option Qc;
  hourly_stddev : option Qc;
  weekday_forecast : option Qc;
  combined_forecast : option Qc
}.

Definition joined (patterns : list Pattern) (k : Z) : option Pattern :=
  find (fun p => key p =? k) patterns.

Definition column (f : Pattern -> option Qc) (p : option Pattern) : option Qc :=
  match p with
  | Some row => f row
  | None => None
  end.

(** [(SELECT AVG(index_value) FROM pizza_readings)] *)
Definition overallAvg (rows : list Supabase.Reading) : option Qc :=
  match rows with
  | [] => None
  | _ => Some (fold_right Qcplus 0%Qc (map Supabase.index_value rows)
               / ofZ (Z.of_nat (List.length rows)))%Qc
  end.

(** [h.avg_index * 0.6 + w.avg_index * 0.3 + (SELECT AVG ...) * 0.1] *)
Definition combined (h w g : option Qc) : option Qc :=
  match h, w, g with
  | Some a, Some b, Some c =>
      Some (a * Q2Qc (6 # 10) + b * Q2Qc (3 # 10) + c * Q2Qc (1 # 10))%Qc
  | _, _, _ => None
  end.

Definition readings_with_forecast (db : Supabase.DB)
    (hourly_patterns weekday_patterns : list Pattern) : list ForecastRow :=
  map (fun r =>
         let h := joined hourly_patterns (Supabase.dc_hour r) in
         let w := joined weekday_patterns (Supabase.dc_weekday r) in
         {| reading := r;
            hourly_forecast := column avg_index h;
            hourly_stddev := column std_dev h;
            weekday_forecast := column avg_index w;
            combined_forecast :=
              combined (column avg_index h) (column avg_index w)
                       (overallAvg (Supabase.pizza_readings db)) |})
      (Supabase.order_desc (Supabase.pizza_readings db)).

End Views.

(** ** Further vocabulary *)

(** A stored reading whose flags follow from its hour and weekday, whose
    index is [null] or a value that rounding to two decimals leaves alone,
    and whose timestamp is the ISO text of an instant. *)
Definition readingOK (r : CollectManual.Reading) : Prop :=
  CollectManual.is_overtime r
    = ((CollectManual.dc_hour r >=? 18) || (CollectManual.dc_hour r <? 6))
  /\ CollectManual.is_weekend r
    = ((CollectManual.dc_weekday r =? 0) || (CollectManual.dc_weekday r =? 6))
  /\ (CollectManual.index_value r = JNull
      \/ exists q, CollectManual.index_value r = JNum q
                   /\ toFixed2 (Fin q) = Fin q)
  /\ exists t, CollectManual.timestamp r = toISOString t.


(** No reading is followed by one with the same first sixteen characters of
    the timestamp. *)
Fixpoint noAdjacentDup (l : list CollectManual.Reading) : Prop :=
  match l with
  | a :: tl =>
      match tl with
      | b :: _ =>
          substring 0 16 (CollectManual.timestamp a)
          <> substring 0 16 (CollectManual.timestamp b)
      | [] => True
      end /\ noAdjacentDup tl
  | [] => True
  end.

(** Two outcomes that agree up to the spike flag. *)
Definition sameStatus (o1 o2 : Outcome) : Prop :=
  match o1, o2 with
  | Success i _, Success j _ => i = j
  | Skipped, Skipped => True
  | Error m, Error n => m = n
  | _, _ => False
  end.


(** [P] holds of the database of a stored file. *)
Definition onStored (P : CollectManual.Database -> Prop)
    (file : CollectManual.DataFile) : Prop :=
  match file with
  | CollectManual.Stored db => P db
  | _ => True
  end.

(** Sample runs: a flat-file tick and a database tick at a given instant
    whose payload is one location of the given popularity. *)
Definition sampleTick (t : UTCTime) (popularity : Z) : CollectManual.Tick :=
  CollectManual.mkTick t
    (Response true (DataArray [mkLoc (Some (JNum (ofZ popularity)))]))
    (mkDC 4 1) true.


(** The data file after a tick with 10 at 09:01 and a tick with 80 at 09:11. *)
Definition sampleFile : CollectManual.DataFile :=
  snd (CollectManual.collect (sampleTick (mkUTC 2026 1 19 9 11 47 100) 80)
         (snd (CollectManual.collect (sampleTick (mkUTC 2026 1 19 9 1 47 123) 10)
                 CollectManual.NoFile))).

(** * Properties *)

(** ** Comparisons of rationals *)

Lemma Qc_ltb_lt (a b : Qc) : Qc_ltb a b = true <-> (a < b)%Qc.
Proof.
  unfold Qc_ltb. rewrite Qclt_alt.
  destruct (a ?= b)%Qc; split; intro H; try reflexivity; discriminate H.
Qed.

Lemma Qc_eqb_eq (a b : Qc) : Qc_eqb a b = true <-> a = b.
Proof.
  unfold Qc_eqb. rewrite Qceq_alt.
  destruct (a ?= b)%Qc; split; intro H; try reflexivity; discriminate H.
Qed.

Lemma Qc_eqb_neq (a b : Qc) : Qc_eqb a b = false <-> a <> b.
Proof.
  rewrite <- Qc_eqb_eq. destruct (Qc_eqb a b); split; intro H;
    try reflexivity; try discriminate; try congruence.
Qed.

(** ** Time classifier *)

(** C6: for a DC wall-clock hour in 0..23, [isOvertime] holds exactly for the
    hours 18..23 and 0..5, that is outside of [6,18), and [isWeekend] holds
    exactly for the weekdays 0 and 6. *)
Theorem time_classifier_flags (d : DCDate) (Hhour : 0 <= getHours d <= 23) :
  (isOvertime (getDCTimeInfo d) = true
     <-> In (getHours d) [18; 19; 20; 21; 22; 23; 0; 1; 2; 3; 4; 5])
  /\ (isOvertime (getDCTimeInfo d) = true <-> ~ (6 <= getHours d < 18))
  /\ (isWeekend (getDCTimeInfo d) = true <-> (getDay d = 0 \/ getDay d = 6))
  /\ hour (getDCTimeInfo d) = getHours d
  /\ weekday (getDCTimeInfo d) = getDay d.
Proof.
  destruct d as [h w]; cbn [getDCTimeInfo getHours getDay isOvertime isWeekend
                            hour weekday] in *.
  repeat split; try reflexivity.
  - intro H. apply orb_true_iff in H. cbn [In].
    destruct H as [H | H]; [apply Z.geb_le in H | apply Z.ltb_lt in H]; lia.
  - intro H. cbn [In] in H. apply orb_true_iff.
    destruct (Z_lt_dec h 6) as [Hl | Hl];
      [right; apply Z.ltb_lt; exact Hl | left; apply Z.geb_le; lia].
  - intros H [H6 H18]. apply orb_true_iff in H.
    destruct H as [H | H]; [apply Z.geb_le in H | apply Z.ltb_lt in H]; lia.
  - intro H. apply orb_true_iff.
    destruct (Z_lt_dec h 6) as [Hl | Hl];
      [right; apply Z.ltb_lt; exact Hl | left; apply Z.geb_le; lia].
  - intro H. apply orb_true_iff in H.
    destruct H as [H | H]; apply Z.eqb_eq in H; [left | right]; exact H.
  - intros [H | H]; apply orb_true_iff; [left | right]; apply Z.eqb_eq; exact H.
Qed.

Lemma time_classifier_flags_witness :
  isOvertime (getDCTimeInfo (mkDC 4 1)) = true
  /\ isWeekend (getDCTimeInfo (mkDC 14 6)) = true
  /\ isOvertime (getDCTimeInfo (mkDC 14 3)) = false.
Proof.
  split; [| split].
  - apply (proj1 (time_classifier_flags (mkDC 4 1) ltac:(cbn; lia))).
    cbn; tauto.
  - apply (proj1 (proj2 (proj2 (time_classifier_flags (mkDC 14 6) ltac:(cbn; lia))))).
    right; reflexivity.
  - reflexivity.
Defined.

(** ** Spike rule *)

Lemma spikeRule_Fin (index_from index_to : Qc) :
  spikeRule (Fin index_from) (Fin index_to) = true <->
  (index_to - index_from > ofZ 20
   \/ (index_to > ofZ 70 /\ index_from < ofZ 55))%Qc.
Proof.
  unfold spikeRule, JS.gt, JS.sub, JS.neg, JS.add, JS.lt.
  rewrite orb_true_iff, andb_true_iff, !Qc_ltb_lt.
  reflexivity.
Qed.





(** ** Metric aggregator *)

Section Aggregator.

Open Scope Qc_scope.

Lemma popularities_finite (locs : list Location) :
  popularities locs = map Fin (map popularityOrZero locs).
Proof.
  unfold popularities. rewrite map_map. apply map_ext. intro loc.
  unfold or_else, popularityOrZero.
  destruct (current_popularity loc) as [[| q] |]; try reflexivity.
  destruct (Qc_eqb q 0) eqn:E; [| reflexivity].
  apply Qc_eqb_eq in E. rewrite E. reflexivity.
Qed.

Lemma fold_add_finite (xs : list Qc) (acc : Qc) :
  fold_left JS.add (map Fin xs) (Fin acc) = Fin (fold_left Qcplus xs acc).
Proof.
  revert acc. induction xs as [| x xs IH]; intro acc; [reflexivity |].
  cbn [map fold_left JS.add]. apply IH.
Qed.

Lemma fold_left_sum (xs : list Qc) (acc : Qc) :
  fold_left Qcplus xs acc = acc + fold_right Qcplus 0 xs.
Proof.
  revert acc. induction xs as [| x xs IH]; intro acc; cbn [fold_left fold_right].
  - ring.
  - rewrite IH. ring.
Qed.

Lemma ofZ_length_nonzero (A : Type) (l : list A) :
  l <> [] -> ofZ (Z.of_nat (List.length l)) <> 0.
Proof.
  intros Hne Heq. destruct l as [| a l]; [apply Hne; reflexivity |].
  unfold ofZ in Heq.
  assert (H : (inject_Z (Z.of_nat (List.length (a :: l))) == 0)%Q).
  { apply Q2Qc_eq_iff. exact Heq. }
  unfold Qeq in H. cbn [inject_Z Qnum Qden List.length] in H. lia.
Qed.

Lemma mean_finite (xs : list Qc) :
  xs <> [] -> mean (map Fin xs) = Fin (arithmeticMean xs).
Proof.
  intro Hne. unfold mean, arithmeticMean.
  rewrite fold_add_finite, fold_left_sum, length_map. cbn [JS.div].
  assert (Hz : Qc_eqb (ofZ (Z.of_nat (List.length xs))) 0 = false).
  { apply Qc_eqb_neq. apply ofZ_length_nonzero. exact Hne. }
  rewrite Hz. f_equal. f_equal. ring.
Qed.

Lemma mean_empty : mean [] = NaN.
Proof. reflexivity. Qed.

End Aggregator.



(** C1 as stated fails: on the empty sequence neither [calculateIndex]
    throws; both return [NaN]. *)
Lemma calculateIndex_empty_does_not_fail :
  ~ fails (Collect.calculateIndex (DataArray []))
  /\ ~ fails (CollectManual.calculateIndex (DataArray []))
  /\ CollectManual.calculateIndex (DataArray []) = Ok NaN.
Proof.
  split; [| split]; try reflexivity; intros [msg H]; discriminate H.
Qed.

(** C1, amended: on the empty sequence [calculateIndex] returns [NaN]
    (0 divided by 0) instead of failing, and the flat-file collector carries
    it on: the tick succeeds and the stored reading has a [null]
    [index_value]. *)
Theorem calculateIndex_empty_is_NaN :
  Collect.calculateIndex (DataArray []) = Ok NaN
  /\ CollectManual.calculateIndex (DataArray []) = Ok NaN
  /\ forall (clock : UTCTime) (dcDate : DCDate),
      CollectManual.collect
        (CollectManual.mkTick clock (Response true (DataArray [])) dcDate true)
        CollectManual.NoFile
      = (Success NaN false,
         CollectManual.Stored
           (CollectManual.mkDb
              [CollectManual.mkReading (toISOString clock) JNull
                 (getHours dcDate) (getDay dcDate)
                 (isOvertime (getDCTimeInfo dcDate))
                 (isWeekend (getDCTimeInfo dcDate))]
              [] (Some (toISOString clock)))).
Proof.
  split; [reflexivity | split; [reflexivity |]].
  intros clock dcDate. reflexivity.
Qed.

(** ** ISO text of an instant and its first sixteen characters *)










(** ** Lists: the last element and the last [n] elements *)

Lemma slice_last_suffix {A} (n : Z) (l : list A) :
  exists evicted, l = (evicted ++ slice_last n l)%list.
Proof.
  unfold slice_last.
  exists (firstn (Z.to_nat (Z.max (Z.of_nat (List.length l) - n) 0)) l).
  symmetry. apply firstn_skipn.
Qed.


Lemma slice_last_all {A} (n : Z) (l : list A) :
  Z.of_nat (List.length l) <= n -> slice_last n l = l.
Proof.
  intro H. unfold slice_last.
  replace (Z.to_nat (Z.max (Z.of_nat (List.length l) - n) 0)) with O by lia.
  reflexivity.
Qed.

Lemma last_elt_app {A} (l : list A) (x : A) : last_elt (l ++ [x]) = Some x.
Proof.
  unfold last_elt. rewrite length_app. cbn [List.length].
  replace (List.length l + 1 - 1)%nat with (List.length l) by lia.
  rewrite nth_error_app2 by lia. rewrite Nat.sub_diag. reflexivity.
Qed.

Lemma last_elt_slice_last {A} (n : Z) (l : list A) (x : A) :
  1 <= n -> last_elt (slice_last n (l ++ [x])) = Some x.
Proof.
  intro Hn. unfold slice_last.
  set (k := Z.to_nat (Z.max (Z.of_nat (List.length (l ++ [x])) - n) 0)).
  assert (Hk : (k <= List.length l)%nat).
  { subst k. rewrite length_app. cbn [List.length]. lia. }
  rewrite skipn_app.
  replace (k - List.length l)%nat with O by lia. cbn [skipn].
  apply last_elt_app.
Qed.

(** ** Flat-file collector *)

Module ManualFacts.

Import CollectManual.

Lemma trimReadings_slice (l : list Reading) : trimReadings l = slice_last 10000 l.
Proof.
  unfold trimReadings. destruct (10000 <? Z.of_nat (List.length l)) eqn:E;
    [reflexivity |].
  apply Z.ltb_ge in E. symmetry. apply slice_last_all. exact E.
Qed.

Lemma trimSpikes_slice (l : list Spike) : trimSpikes l = slice_last 100 l.
Proof.
  unfold trimSpikes. destruct (100 <? Z.of_nat (List.length l)) eqn:E;
    [reflexivity |].
  apply Z.ltb_ge in E. symmetry. apply slice_last_all. exact E.
Qed.

(** What a successful tick went through. *)
Lemma collect_success_inv (tk : Tick) (file : DataFile)
    (idx : jsnum) (sp : bool) (file' : DataFile) :
  collect tk file = (Success idx sp, file') ->
  exists locs db spk,
    upstream tk = Response true (DataArray locs)
    /\ load file = Ok db
    /\ isDuplicate (lastTs db) (toISOString (clock tk)) = false
    /\ checkSpike db
         (newReadingOf (toISOString (clock tk)) (indexOf locs)
                       (getDCTimeInfo (dcDate tk)))
         (toFixed2 (indexOf locs)) = Ok (spk, sp)
    /\ writable tk = true
    /\ idx = toFixed2 (indexOf locs)
    /\ file' = Stored
         {| readings :=
              trimReadings
                (readings db ++
                 [newReadingOf (toISOString (clock tk)) (indexOf locs)
                               (getDCTimeInfo (dcDate tk))]);
            spikes := spk;
            lastUpdate := Some (toISOString (clock tk)) |}.
Proof.
  unfold collect, run, indexOf.
  destruct (upstream tk) as [msg | success data]; cbn [checkResponse bind];
    [discriminate |].
  destruct success; cbn [negb orb]; [| discriminate].
  destruct data as [| | locs]; cbn [bind calculateIndex]; try discriminate.
  destruct (load file) as [db | msg]; cbn [bind]; [| discriminate].
  cbn [timestamp newReadingOf].
  destruct (isDuplicate (lastTs db) (toISOString (clock tk))) eqn:Hdup;
    [discriminate |].
  destruct (checkSpike db _ _) as [[spk b] | msg] eqn:Hsp; cbn [bind];
    [| discriminate].
  destruct (writable tk) eqn:Hw; [| discriminate].
  cbn [fst snd]. intro H. injection H as <- <- <-.
  exists locs, db, spk. repeat split; try reflexivity; assumption.
Qed.

(** A tick with a valid response, a loadable file, no reading of the same
    minute, and a writable disk succeeds, unless the log line of a spike
    meets a stored [null]. *)
Lemma collect_succeeds (tk : Tick) (file : DataFile) (locs : list Location)
    (db : Database) (spk : list Spike) (sp : bool) :
  upstream tk = Response true (DataArray locs) ->
  load file = Ok db ->
  isDuplicate (lastTs db) (toISOString (clock tk)) = false ->
  checkSpike db
    (newReadingOf (toISOString (clock tk)) (indexOf locs)
                  (getDCTimeInfo (dcDate tk)))
    (toFixed2 (indexOf locs)) = Ok (spk, sp) ->
  writable tk = true ->
  collect tk file
  = (Success (toFixed2 (indexOf locs)) sp,
     Stored
       {| readings :=
            trimReadings
              (readings db ++
               [newReadingOf (toISOString (clock tk)) (indexOf locs)
                             (getDCTimeInfo (dcDate tk))]);
          spikes := spk;
          lastUpdate := Some (toISOString (clock tk)) |}).
Proof.
  intros Hup Hload Hdup Hsp Hw. unfold collect, run, indexOf in *.
  rewrite Hup. cbn [checkResponse negb orb bind calculateIndex].
  rewrite Hload. cbn [bind timestamp newReadingOf].
  rewrite Hdup.
  cbn [timestamp newReadingOf] in Hsp. rewrite Hsp. cbn [bind].
  rewrite Hw. reflexivity.
Qed.

(** A tick that does not succeed leaves the file as it was. *)
Lemma collect_no_write (tk : Tick) (file : DataFile) :
  (forall idx sp, fst (collect tk file) <> Success idx sp) ->
  snd (collect tk file) = file.
Proof.
  intro H. unfold collect in *.
  destruct (run tk file) as [[out f'] | msg] eqn:Hrun; [| reflexivity].
  cbn [fst snd] in *.
  unfold run in Hrun.
  destruct (checkResponse (upstream tk)) as [data | m]; cbn [bind] in Hrun;
    [| discriminate].
  destruct (calculateIndex data) as [index | m]; cbn [bind] in Hrun;
    [| discriminate].
  destruct (load file) as [db | m]; cbn [bind] in Hrun; [| discriminate].
  destruct (isDuplicate _ _); [injection Hrun as <- <-; reflexivity |].
  destruct (checkSpike _ _ _) as [sp | m]; cbn [bind] in Hrun; [| discriminate].
  destruct (writable tk); [| discriminate].
  injection Hrun as <- <-. exfalso. eapply H. reflexivity.
Qed.

(** After a successful tick the last stored reading carries the tick's
    timestamp. *)
Lemma lastTs_after_success (tk : Tick) (file : DataFile)
    (idx : jsnum) (sp : bool) (db' : Database) :
  collect tk file = (Success idx sp, Stored db') ->
  lastTs db' = Some (toISOString (clock tk)).
Proof.
  intro H. apply collect_success_inv in H.
  destruct H as (locs & db & spk & _ & _ & _ & _ & _ & _ & Hf).
  injection Hf as ->. unfold lastTs. cbn [readings].
  rewrite trimReadings_slice, last_elt_slice_last by lia.
  reflexivity.
Qed.


End ManualFacts.

(** ** Duplicate guard *)



(** ** Retention caps of the flat file *)

Module CapFacts.

Import CollectManual ManualFacts.

Lemma checkSpike_cases (db : Database) (newReading : Reading)
    (indexValue : jsnum) (spk : list Spike) (sp : bool) :
  checkSpike db newReading indexValue = Ok (spk, sp) ->
  (sp = false /\ spk = spikes db)
  \/ (sp = true /\ exists s, spike_timestamp s = timestamp newReading
                             /\ spk = slice_last 100 (spikes db ++ [s])).
Proof.
  unfold checkSpike.
  destruct (last_elt (readings db)) as [r |].
  - destruct (spikeRule _ _).
    + destruct (index_value r) as [| q] eqn:Hprev; [discriminate |].
      intro H. injection H as <- <-. right. split; [reflexivity |].
      eexists. split; [| apply trimSpikes_slice]. reflexivity.
    + intro H. injection H as <- <-. left. split; reflexivity.
  - intro H. injection H as <- <-. left. split; reflexivity.
Qed.





End CapFacts.



(** ** A missing or unreadable data file *)

(** C10: when the data file is missing or is not parseable JSON, the
    flat-file collector goes on with the empty database; with a valid
    response and a writable disk the tick succeeds and the file it writes
    holds the new reading and nothing else; any successful tick on such a
    file writes exactly that, and a failed one leaves the file as it was. *)
Theorem missing_or_unparseable_file_is_replaced
    (tk : CollectManual.Tick) (file : CollectManual.DataFile)
    (Hfile : file = CollectManual.NoFile \/ file = CollectManual.NotJson) :
  CollectManual.load file = Ok (CollectManual.mkDb [] [] None)
  /\ (forall locs,
        CollectManual.upstream tk = Response true (DataArray locs) ->
        CollectManual.writable tk = true ->
        CollectManual.collect tk file
        = (Success (toFixed2 (indexOf locs)) false,
           CollectManual.Stored
             (CollectManual.mkDb
                [CollectManual.newReadingOf
                   (toISOString (CollectManual.clock tk))
                   (indexOf locs)
                   (getDCTimeInfo (CollectManual.dcDate tk))]
                []
                (Some (toISOString (CollectManual.clock tk))))))
  /\ (forall idx sp file',
        CollectManual.collect tk file = (Success idx sp, file') ->
        exists r,
          file' = CollectManual.Stored
                    (CollectManual.mkDb [r] []
                       (Some (toISOString (CollectManual.clock tk)))))
  /\ ((forall idx sp, fst (CollectManual.collect tk file) <> Success idx sp) ->
      snd (CollectManual.collect tk file) = file).
Proof.
  assert (Hload : CollectManual.load file = Ok (CollectManual.mkDb [] [] None)).
  { destruct Hfile as [-> | ->]; reflexivity. }
  split; [exact Hload |]. split; [| split].
  - intros locs Hup Hw.
    rewrite (ManualFacts.collect_succeeds tk file locs
               (CollectManual.mkDb [] [] None) [] false Hup Hload
               eq_refl eq_refl Hw).
    reflexivity.
  - intros idx sp file' H. apply ManualFacts.collect_success_inv in H.
    destruct H as (locs & db & spk & _ & Hl & _ & Hsp & _ & _ & ->).
    rewrite Hload in Hl. injection Hl as <-.
    cbn in Hsp. injection Hsp as <- <-.
    eexists. reflexivity.
  - apply ManualFacts.collect_no_write.
Qed.

Lemma missing_or_unparseable_file_is_replaced_witness :
  CollectManual.collect
    (CollectManual.mkTick (mkUTC 2026 1 19 9 1 47 123)
       (Response true (DataArray [mkLoc (Some (JNum (ofZ 40)));
                                  mkLoc (Some (JNum (ofZ 60)))]))
       (mkDC 14 3) true)
    CollectManual.NotJson
  = (Success (toFixed2 (indexOf [mkLoc (Some (JNum (ofZ 40)));
                                             mkLoc (Some (JNum (ofZ 60)))]))
             false,
     CollectManual.Stored
       (CollectManual.mkDb
          [CollectManual.newReadingOf
             (toISOString (mkUTC 2026 1 19 9 1 47 123))
             (indexOf [mkLoc (Some (JNum (ofZ 40)));
                                   mkLoc (Some (JNum (ofZ 60)))])
             (getDCTimeInfo (mkDC 14 3))]
          []
          (Some (toISOString (mkUTC 2026 1 19 9 1 47 123))))).
Proof.
  apply (proj1 (proj2 (missing_or_unparseable_file_is_replaced
                         (CollectManual.mkTick (mkUTC 2026 1 19 9 1 47 123)
                            (Response true
                               (DataArray [mkLoc (Some (JNum (ofZ 40)));
                                           mkLoc (Some (JNum (ofZ 60)))]))
                            (mkDC 14 3) true)
                         CollectManual.NotJson (or_intror eq_refl)))
               [mkLoc (Some (JNum (ofZ 40))); mkLoc (Some (JNum (ofZ 60)))]
               eq_refl eq_refl).
Defined.

(** ** Rounding to two decimals stays close *)

Lemma this_Q2Qc (x : Q) : (this (Q2Qc x) == x)%Q.
Proof. cbn [Q2Qc this]. apply Qred_correct. Qed.

Lemma round2_close (q : Qc) :
  (this q - (1 # 100) < this (round2 q) /\ this (round2 q) < this q + (1 # 100))%Q.
Proof.
  unfold round2.
  set (y := (Qabs q * inject_Z 100 + (1 # 2))%Q).
  pose proof (Qfloor_le y) as Hle.
  pose proof (Qlt_floor y) as Hlt.
  rewrite inject_Z_plus in Hlt.
  set (n := Qfloor y) in *.
  assert (H100 : (inject_Z 100 == 100)%Q) by reflexivity.
  assert (H1 : (inject_Z 1 == 1)%Q) by reflexivity.
  assert (Hinv : (/ 100 == 1 # 100)%Q) by reflexivity.
  destruct (Qc_ltb q 0) eqn:Hneg.
  - apply Qc_ltb_lt in Hneg. unfold Qclt in Hneg. cbn [this Q2Qc] in Hneg.
    assert (Hq : (this q < 0)%Q) by (rewrite Qred_correct in Hneg; exact Hneg).
    assert (Habs : (Qabs q == - this q)%Q).
    { apply Qabs_neg. apply Qlt_le_weak. exact Hq. }
    subst y. rewrite Habs in Hle, Hlt.
    rewrite this_Q2Qc, inject_Z_opp.
    unfold Qdiv. rewrite H100 in *. rewrite H1 in *. rewrite Hinv.
    clear Hneg Habs. generalize dependent (inject_Z n). intros z Hle Hlt.
    split; lra.
  - assert (Hq : (0 <= this q)%Q).
    { apply Qnot_lt_le. intro Hlt0.
      assert (Hc : Qc_ltb q 0 = true).
      { apply Qc_ltb_lt. unfold Qclt. cbn [this Q2Qc].
        rewrite Qred_correct. exact Hlt0. }
      congruence. }
    assert (Habs : (Qabs q == this q)%Q) by (apply Qabs_pos; exact Hq).
    subst y. rewrite Habs in Hle, Hlt.
    rewrite this_Q2Qc.
    unfold Qdiv. rewrite H100 in *. rewrite H1 in *. rewrite Hinv.
    clear Hneg Habs. generalize dependent (inject_Z n). intros z Hle Hlt.
    split; lra.
Qed.

Lemma spikeRule_after_rounding (q : Qc) :
  spikeRule (Fin (round2 q)) (Fin q) = false.
Proof.
  destruct (spikeRule (Fin (round2 q)) (Fin q)) eqn:E; [| reflexivity].
  exfalso. apply spikeRule_Fin in E.
  destruct (round2_close q) as [Hlo Hhi].
  unfold Qclt, Qcminus, Qcplus, Qcopp, ofZ in E.
  rewrite !this_Q2Qc in E.
  assert (H20 : (inject_Z 20 == 20)%Q) by reflexivity.
  assert (H70 : (inject_Z 70 == 70)%Q) by reflexivity.
  assert (H55 : (inject_Z 55 == 55)%Q) by reflexivity.
  rewrite H20, H70, H55 in E.
  destruct E as [E | [E1 E2]]; lra.
Qed.

(** ** Database collectors *)

Module DbFacts.

Import Supabase.


Lemma lex_ltb_asym (a b : list Z) : lex_ltb a b = true -> lex_ltb b a = false.
Proof.
  revert b. induction a as [| x a IH]; intros [| y b] H; cbn [lex_ltb] in *;
    try reflexivity; try discriminate.
  apply orb_true_iff in H. apply orb_false_iff.
  destruct H as [H | H].
  - apply Z.ltb_lt in H. split.
    + apply Z.ltb_ge. lia.
    + apply andb_false_iff. left. apply Z.eqb_neq. lia.
  - apply andb_true_iff in H. destruct H as [He Hl].
    apply Z.eqb_eq in He. subst y. split.
    + apply Z.ltb_irrefl.
    + rewrite (IH b Hl). apply andb_false_r.
Qed.

Lemma time_ltb_asym (a b : UTCTime) : time_ltb a b = true -> time_ltb b a = false.
Proof. apply lex_ltb_asym. Qed.

(** A row later than all the others comes first in descending order. *)
Lemma order_desc_latest (rows : list Reading) (r : Reading) :
  (forall x, In x rows -> time_ltb (timestamp x) (timestamp r) = true) ->
  exists rest, order_desc (rows ++ [r]) = r :: rest
               /\ order_desc rows = rest.
Proof.
  unfold order_desc. rewrite fold_right_app. cbn [fold_right insert_desc].
  induction rows as [| x rows IH]; intro Hall.
  - exists []. split; reflexivity.
  - destruct IH as (rest & Hrest & Hrows).
    { intros y Hy. apply Hall. right. exact Hy. }
    cbn [fold_right]. rewrite Hrest, Hrows. cbn [insert_desc].
    rewrite (time_ltb_asym _ _ (Hall x (or_introl eq_refl))).
    eexists. split; reflexivity.
Qed.

(** What an accepted insert did. *)
Lemma insertReading_inv (r : NewReading) (db db1 : DB) :
  insertReading r db = inr db1 ->
  exists q,
    new_index_value r = Fin q
    /\ Qc_ltb (Q2Qc (Qabs (round2 q))) (ofZ 1000) = true
    /\ db1 = {| pizza_readings :=
                  pizza_readings db ++
                  [ {| timestamp := new_timestamp r;
                       index_value := round2 q;
                       dc_hour := new_dc_hour r;
                       dc_weekday := new_dc_weekday r;
                       is_overtime := new_is_overtime r;
                       is_weekend := new_is_weekend r |} ];
                pizza_spikes := pizza_spikes db |}.
Proof.
  unfold insertReading.
  destruct (new_index_value r) as [q | | |]; cbn [toJSON]; try discriminate.
  destruct (Qc_ltb (Q2Qc (Qabs (round2 q))) (ofZ 1000)) eqn:Hrange;
    cbn [negb]; [| discriminate].
  destruct (existsb _ _); [discriminate |].
  intro H. injection H as <-. exists q. repeat split. exact Hrange.
Qed.


End DbFacts.

Module CollectorFacts.

Import Supabase DbFacts.

Lemma Collect_success_inv (tk : DbTick) (db : DB) (idx : jsnum) (sp : bool)
    (db' : DB) :
  Collect.collect tk db = (Success idx sp, db') ->
  exists locs dbi,
    db_upstream tk = Response true (DataArray locs)
    /\ idx = indexOf locs
    /\ insertReading (sentReading tk locs) db = inr dbi
    /\ match Collect.detectSpike dbi (spikeClock tk) (indexOf locs)
               (getDCTimeInfo (db_dcDate tk)) with
       | Some s => sp = true /\ db' = insertSpike s dbi
       | None => sp = false /\ db' = dbi
       end.
Proof.
  unfold Collect.collect, Collect.run, sentReading, indexOf.
  destruct (db_upstream tk) as [msg | success data]; cbn [checkResponse bind];
    [discriminate |].
  destruct success; cbn [negb orb]; [| discriminate].
  destruct data as [| | locs]; cbn [bind Collect.calculateIndex];
    try discriminate.
  destruct (insertReading _ db) as [code | dbi] eqn:Hins.
  - destruct (String.eqb code unique_violation); discriminate.
  - destruct (Collect.detectSpike dbi _ _ _) as [s |] eqn:Hsp;
      intro H; injection H as <- <- <-; exists locs, dbi;
      repeat split; try assumption; rewrite Hsp; split; reflexivity.
Qed.

Lemma Continuous_success_inv (tk : DbTick) (db : DB) (idx : jsnum) (sp : bool)
    (db' : DB) :
  Continuous.collect tk db = (Success idx sp, db') ->
  exists locs dbi,
    db_upstream tk = Response true (DataArray locs)
    /\ idx = indexOf locs
    /\ insertReading (sentReading tk locs) db = inr dbi
    /\ ((sp = false /\ db' = dbi
         /\ match selectLatest 2 dbi with
            | _ :: prev :: _ => spikeRule (Fin prev) idx = false
            | _ => True
            end)
        \/ (sp = true
            /\ exists cur prev rest,
                selectLatest 2 dbi = cur :: prev :: rest
                /\ spikeRule (Fin prev) idx = true
                /\ db' = insertSpike
                           {| spike_timestamp := spikeClock tk;
                              index_from := Fin prev;
                              index_to := idx;
                              change_amount := JS.sub idx (Fin prev);
                              spike_is_overtime :=
                                isOvertime (getDCTimeInfo (db_dcDate tk));
                              spike_is_weekend :=
                                isWeekend (getDCTimeInfo (db_dcDate tk)) |}
                           dbi)).
Proof.
  unfold Continuous.collect, Continuous.run, Continuous.calculateIndex,
    sentReading, indexOf.
  destruct (db_upstream tk) as [msg | success data]; cbn [checkResponse bind];
    [discriminate |].
  destruct success; cbn [negb orb]; [| discriminate].
  destruct data as [| | locs]; cbn [bind Collect.calculateIndex];
    try discriminate.
  destruct (insertReading _ db) as [code | dbi] eqn:Hins.
  - destruct (String.eqb code unique_violation); discriminate.
  - destruct (selectLatest 2 dbi) as [| cur [| prev rest]] eqn:Hsel.
    + intro H; injection H as <- <- <-. exists locs, dbi.
      split; [reflexivity |]. split; [reflexivity |]. split; [exact Hins |].
      left. rewrite ?Hsel. repeat split.
    + intro H; injection H as <- <- <-. exists locs, dbi.
      split; [reflexivity |]. split; [reflexivity |]. split; [exact Hins |].
      left. rewrite ?Hsel. repeat split.
    + destruct (spikeRule (Fin prev) (mean (popularities locs))) eqn:Hrule;
        intro H; injection H as <- <- <-; exists locs, dbi;
        (split; [reflexivity |]); (split; [reflexivity |]);
        (split; [exact Hins |]).
      * right. split; [reflexivity |]. exists cur, prev, rest.
        rewrite ?Hsel. repeat split. exact Hrule.
      * left. rewrite ?Hsel. repeat split. exact Hrule.
Qed.



(** In scripts/collect.js the row read back by [detectSpike] is the row
    just inserted, as soon as that row is the latest. *)
Lemma Collect_reads_back_inserted (tk : DbTick) (db dbi : DB)
    (locs : list Location) :
  (forall x, In x (pizza_readings db) ->
             time_ltb (timestamp x) (insertClock tk) = true) ->
  insertReading (sentReading tk locs) db = inr dbi ->
  exists q, indexOf locs = Fin q /\ selectLatest 1 dbi = [round2 q].
Proof.
  intros Hlate Hins. apply insertReading_inv in Hins.
  destruct Hins as (q & Hq & _ & ->). exists q. split; [exact Hq |].
  unfold selectLatest. cbn [pizza_readings].
  destruct (order_desc_latest (pizza_readings db)
              {| timestamp := new_timestamp (sentReading tk locs);
                 index_value := round2 q;
                 dc_hour := new_dc_hour (sentReading tk locs);
                 dc_weekday := new_dc_weekday (sentReading tk locs);
                 is_overtime := new_is_overtime (sentReading tk locs);
                 is_weekend := new_is_weekend (sentReading tk locs) |})
    as (rest & Hord & _).
  { intros x Hx. cbn [timestamp]. apply Hlate. exact Hx. }
  rewrite Hord. reflexivity.
Qed.

(** In scripts/continuous.js the value compared is the one of the latest
    row stored before the insert. *)
Lemma Continuous_reads_previous (tk : DbTick) (db dbi : DB)
    (locs : list Location) (p : Reading) (older : list Reading) :
  (forall x, In x (pizza_readings db) ->
             time_ltb (timestamp x) (insertClock tk) = true) ->
  order_desc (pizza_readings db) = p :: older ->
  insertReading (sentReading tk locs) db = inr dbi ->
  exists q, indexOf locs = Fin q
            /\ firstn 2 (selectLatest 2 dbi) = [round2 q; index_value p].
Proof.
  intros Hlate Hprev Hins. apply insertReading_inv in Hins.
  destruct Hins as (q & Hq & _ & ->). exists q. split; [exact Hq |].
  unfold selectLatest. cbn [pizza_readings].
  destruct (order_desc_latest (pizza_readings db)
              {| timestamp := new_timestamp (sentReading tk locs);
                 index_value := round2 q;
                 dc_hour := new_dc_hour (sentReading tk locs);
                 dc_weekday := new_dc_weekday (sentReading tk locs);
                 is_overtime := new_is_overtime (sentReading tk locs);
                 is_weekend := new_is_weekend (sentReading tk locs) |})
    as (rest & Hord & Hrest).
  { intros x Hx. cbn [timestamp]. apply Hlate. exact Hx. }
  rewrite Hord, <- Hrest, Hprev. reflexivity.
Qed.

(** A run that does not succeed leaves the tables as they were. *)
Lemma Collect_no_write (tk : DbTick) (db : DB) :
  (forall idx sp, fst (Collect.collect tk db) <> Success idx sp) ->
  snd (Collect.collect tk db) = db.
Proof.
  intro H. unfold Collect.collect in *.
  destruct (Collect.run tk db) as [[out db'] | msg] eqn:Hrun; [| reflexivity].
  cbn [fst snd] in *. unfold Collect.run in Hrun.
  destruct (checkResponse (db_upstream tk)) as [data | m]; cbn [bind] in Hrun;
    [| discriminate].
  destruct (Collect.calculateIndex data) as [index | m]; cbn [bind] in Hrun;
    [| discriminate].
  destruct (insertReading _ db) as [code | dbi].
  - destruct (String.eqb code unique_violation); [| discriminate].
    injection Hrun as <- <-. reflexivity.
  - destruct (Collect.detectSpike dbi _ _ _); injection Hrun as <- <-;
      exfalso; eapply H; reflexivity.
Qed.

Lemma Continuous_no_write (tk : DbTick) (db : DB) :
  (forall idx sp, fst (Continuous.collect tk db) <> Success idx sp) ->
  snd (Continuous.collect tk db) = db.
Proof.
  intro H. unfold Continuous.collect in *.
  destruct (Continuous.run tk db) as [[out db'] | msg] eqn:Hrun; [| reflexivity].
  cbn [fst snd] in *. unfold Continuous.run in Hrun.
  destruct (checkResponse (db_upstream tk)) as [data | m]; cbn [bind] in Hrun;
    [| discriminate].
  destruct (Continuous.calculateIndex data) as [index | m]; cbn [bind] in Hrun;
    [| discriminate].
  destruct (insertReading _ db) as [code | dbi].
  - destruct (String.eqb code unique_violation); [| discriminate].
    injection Hrun as <- <-. reflexivity.
  - destruct (selectLatest 2 dbi) as [| cur [| prev rest]];
      [| | destruct (spikeRule _ _)]; injection Hrun as <- <-;
      exfalso; eapply H; reflexivity.
Qed.

End CollectorFacts.

(** ** Idempotence within a minute *)



Lemma Continuous_success_rows (tk : DbTick) (db db1 : Supabase.DB)
    (idx : jsnum) (sp : bool) :
  Continuous.collect tk db = (Success idx sp, db1) ->
  exists row, Supabase.timestamp row = insertClock tk
              /\ Supabase.pizza_readings db1 = (Supabase.pizza_readings db ++ [row])%list.
Proof.
  intro H. apply CollectorFacts.Continuous_success_inv in H.
  destruct H as (locs & dbi & _ & _ & Hins & Hsp).
  apply DbFacts.insertReading_inv in Hins. destruct Hins as (q & _ & _ & ->).
  eexists. split;
    [| destruct Hsp as [(_ & -> & _) | (_ & cur & prev & rest & _ & _ & ->)];
       reflexivity].
  reflexivity.
Qed.






(** ** Which value the spike detector compares with *)

(** C2: in scripts/collect.js and api/collect.js the reading is inserted
    before [detectSpike] asks for the latest row.  So whenever the inserted
    row is later than every stored one, the row read back is the inserted
    one, the new index is compared with its own rounded value, and no spike
    is reported or stored, whatever the preceding reading was.  With a
    stored 10 and a new 80 the rule holds for the pair, scripts/collect.js
    reports no spike, and scripts/continuous.js, which takes the second of
    the two latest rows, so the latest row stored before the insert, reports
    one.  Without any stored reading [detectSpike] and the flat-file check
    report no spike. *)
Theorem collect_js_compares_with_inserted_row :
  (forall tk db idx sp db',
      (forall x, In x (Supabase.pizza_readings db) ->
                 time_ltb (Supabase.timestamp x) (insertClock tk) = true) ->
      Collect.collect tk db = (Success idx sp, db') ->
      sp = false
      /\ Supabase.pizza_spikes db' = Supabase.pizza_spikes db
      /\ exists locs q dbi,
          idx = Fin q
          /\ Supabase.insertReading (sentReading tk locs) db
             = inr dbi
          /\ Supabase.selectLatest 1 dbi = [round2 q]
          /\ Collect.detectSpike dbi (spikeClock tk) idx
               (getDCTimeInfo (db_dcDate tk)) = None)
  /\ (let stored :=
        Supabase.mkDB
          [Supabase.mkReading (mkUTC 2026 1 19 9 1 47 123) (ofZ 10) 4 1 true false]
          [] in
      let tick :=
        mkDbTick (Response true (DataArray [mkLoc (Some (JNum (ofZ 80)))]))
          (mkDC 4 1) (mkUTC 2026 1 19 9 11 47 100) (mkUTC 2026 1 19 9 11 47 350) in
      spikeRule (Fin (ofZ 10)) (indexOf [mkLoc (Some (JNum (ofZ 80)))])
      = true
      /\ fst (Collect.collect tick stored)
         = Success (indexOf [mkLoc (Some (JNum (ofZ 80)))]) false
      /\ Supabase.pizza_spikes (snd (Collect.collect tick stored)) = []
      /\ fst (Continuous.collect tick stored)
         = Success (indexOf [mkLoc (Some (JNum (ofZ 80)))]) true)
  /\ (forall tk db dbi locs p older,
        (forall x, In x (Supabase.pizza_readings db) ->
                   time_ltb (Supabase.timestamp x) (insertClock tk) = true) ->
        Supabase.order_desc (Supabase.pizza_readings db) = p :: older ->
        Supabase.insertReading (sentReading tk locs) db = inr dbi ->
        exists q, indexOf locs = Fin q
                  /\ firstn 2 (Supabase.selectLatest 2 dbi)
                     = [round2 q; Supabase.index_value p])
  /\ (forall spikes clock currentIndex dcInfo,
        Collect.detectSpike (Supabase.mkDB [] spikes) clock currentIndex dcInfo
        = None)
  /\ (forall db newReading indexValue,
        CollectManual.readings db = [] ->
        CollectManual.checkSpike db newReading indexValue
        = Ok (CollectManual.spikes db, false)).
Proof.
  split; [| split; [| split; [exact CollectorFacts.Continuous_reads_previous |
                              split; [reflexivity |]]]];
    [| | intros db newReading indexValue Hnil;
         unfold CollectManual.checkSpike; rewrite Hnil; reflexivity].
  - intros tk db idx sp db' Hlate H.
    apply CollectorFacts.Collect_success_inv in H.
    destruct H as (locs & dbi & _ & -> & Hins & Hsp).
    destruct (CollectorFacts.Collect_reads_back_inserted tk db dbi locs Hlate Hins)
      as (q & Hq & Hsel).
    assert (Hnone : Collect.detectSpike dbi (spikeClock tk)
                      (indexOf locs)
                      (getDCTimeInfo (db_dcDate tk)) = None).
    { unfold Collect.detectSpike. rewrite Hsel, Hq.
      rewrite spikeRule_after_rounding. reflexivity. }
    rewrite Hnone in Hsp. destruct Hsp as [-> ->].
    split; [reflexivity |]. split.
    + apply DbFacts.insertReading_inv in Hins.
      destruct Hins as (q' & _ & _ & ->). reflexivity.
    + exists locs, q, dbi. repeat split; assumption.
  - cbv zeta. repeat split; vm_compute; reflexivity.
Qed.

Lemma collect_js_compares_with_inserted_row_witness :
  exists idx db',
    Collect.collect
      (mkDbTick (Response true (DataArray [mkLoc (Some (JNum (ofZ 80)))]))
         (mkDC 4 1) (mkUTC 2026 1 19 9 11 47 100) (mkUTC 2026 1 19 9 11 47 350))
      (Supabase.mkDB
         [Supabase.mkReading (mkUTC 2026 1 19 9 1 47 123) (ofZ 10) 4 1 true false]
         [])
    = (Success idx false, db')
    /\ Supabase.pizza_spikes db' = [].
Proof.
  destruct collect_js_compares_with_inserted_row as [Hgen _].
  eexists. eexists. split; [reflexivity |].
  refine (proj1 (proj2 (Hgen
    (mkDbTick (Response true (DataArray [mkLoc (Some (JNum (ofZ 80)))]))
       (mkDC 4 1) (mkUTC 2026 1 19 9 11 47 100) (mkUTC 2026 1 19 9 11 47 350))
    (Supabase.mkDB
       [Supabase.mkReading (mkUTC 2026 1 19 9 1 47 123) (ofZ 10) 4 1 true false]
       [])
    _ false _ _ eq_refl))).
  intros x [<- | []]. reflexivity.
Defined.

(** ** Timestamp of a spike *)

Lemma manual_spike_timestamp (tk : CollectManual.Tick)
    (file : CollectManual.DataFile) (idx : jsnum) (db' : CollectManual.Database) :
  CollectManual.collect tk file = (Success idx true, CollectManual.Stored db') ->
  exists s newReading,
    last_elt (CollectManual.spikes db') = Some s
    /\ last_elt (CollectManual.readings db') = Some newReading
    /\ CollectManual.spike_timestamp s = CollectManual.timestamp newReading
    /\ CollectManual.timestamp newReading = toISOString (CollectManual.clock tk).
Proof.
  intro H. apply ManualFacts.collect_success_inv in H.
  destruct H as (locs & db & spk & _ & _ & _ & Hsp & _ & _ & Hf).
  injection Hf as ->. cbn [CollectManual.readings CollectManual.spikes].
  apply CapFacts.checkSpike_cases in Hsp.
  destruct Hsp as [[Hfalse _] | [_ (s & Hts & ->)]]; [discriminate |].
  exists s. eexists. split; [apply last_elt_slice_last; lia |].
  split.
  { rewrite ManualFacts.trimReadings_slice. apply last_elt_slice_last. lia. }
  split; [exact Hts | reflexivity].
Qed.

Lemma Continuous_spike_timestamp (tk : DbTick) (db db' : Supabase.DB)
    (idx : jsnum) :
  Continuous.collect tk db = (Success idx true, db') ->
  exists s row,
    Supabase.pizza_spikes db' = (Supabase.pizza_spikes db ++ [s])%list
    /\ Supabase.spike_timestamp s = spikeClock tk
    /\ Supabase.pizza_readings db' = (Supabase.pizza_readings db ++ [row])%list
    /\ Supabase.timestamp row = insertClock tk.
Proof.
  intro H.
  destruct (Continuous_success_rows _ _ _ _ _ H) as (row & Hrow & Hrows).
  apply CollectorFacts.Continuous_success_inv in H.
  destruct H as (locs & dbi & _ & _ & Hins & Hsp).
  destruct Hsp as [(Hfalse & _) | (_ & cur & prev & rest & _ & _ & ->)];
    [discriminate |].
  apply DbFacts.insertReading_inv in Hins. destruct Hins as (q & _ & _ & ->).
  eexists. exists row. cbn [Supabase.insertSpike Supabase.pizza_spikes].
  split; [reflexivity |]. split; [reflexivity |].
  split; [exact Hrows | exact Hrow].
Qed.

(** C9: in the database collectors the timestamp of a spike is the clock
    read when the spike object is built ([spikeClock]), while the reading
    carries the clock read at its insert ([insertClock]): [detectSpike] of
    scripts/collect.js stamps the spike with the clock it is given, and a
    spike stored by scripts/continuous.js carries [spikeClock] next to a
    reading that carries [insertClock]; with the insert at 09:11:47.100 and
    the spike built at 09:11:47.350 the two differ.  The flat-file collector
    copies the timestamp of the new reading into the spike. *)
Theorem spike_timestamp_is_a_second_clock_read :
  (forall db clock currentIndex dcInfo s,
      Collect.detectSpike db clock currentIndex dcInfo = Some s ->
      Supabase.spike_timestamp s = clock)
  /\ (forall tk db idx db',
        Continuous.collect tk db = (Success idx true, db') ->
        exists s row,
          Supabase.pizza_spikes db' = (Supabase.pizza_spikes db ++ [s])%list
          /\ Supabase.spike_timestamp s = spikeClock tk
          /\ Supabase.pizza_readings db' = (Supabase.pizza_readings db ++ [row])%list
          /\ Supabase.timestamp row = insertClock tk)
  /\ (let stored :=
        Supabase.mkDB
          [Supabase.mkReading (mkUTC 2026 1 19 9 1 47 123) (ofZ 10) 4 1 true false]
          [] in
      let tick :=
        mkDbTick (Response true (DataArray [mkLoc (Some (JNum (ofZ 80)))]))
          (mkDC 4 1) (mkUTC 2026 1 19 9 11 47 100) (mkUTC 2026 1 19 9 11 47 350) in
      map Supabase.spike_timestamp
          (Supabase.pizza_spikes (snd (Continuous.collect tick stored)))
      = [mkUTC 2026 1 19 9 11 47 350]
      /\ map Supabase.timestamp
             (Supabase.pizza_readings (snd (Continuous.collect tick stored)))
         = [mkUTC 2026 1 19 9 1 47 123; mkUTC 2026 1 19 9 11 47 100]
      /\ mkUTC 2026 1 19 9 11 47 350 <> mkUTC 2026 1 19 9 11 47 100)
  /\ (forall tk file idx db',
        CollectManual.collect tk file
        = (Success idx true, CollectManual.Stored db') ->
        exists s newReading,
          last_elt (CollectManual.spikes db') = Some s
          /\ last_elt (CollectManual.readings db') = Some newReading
          /\ CollectManual.spike_timestamp s = CollectManual.timestamp newReading
          /\ CollectManual.timestamp newReading
             = toISOString (CollectManual.clock tk)).
Proof.
  split; [| split; [| split]].
  - intros db clock currentIndex dcInfo s. unfold Collect.detectSpike.
    destruct (Supabase.selectLatest 1 db) as [| prev rest]; [discriminate |].
    destruct (spikeRule _ _); [| discriminate].
    intro H. injection H as <-. reflexivity.
  - intros tk db idx db'. apply Continuous_spike_timestamp.
  - cbv zeta. split; [vm_compute; reflexivity |].
    split; [vm_compute; reflexivity | discriminate].
  - exact manual_spike_timestamp.
Qed.

Lemma spike_timestamp_is_a_second_clock_read_witness :
  exists s,
    Collect.detectSpike
      (Supabase.mkDB
         [Supabase.mkReading (mkUTC 2026 1 19 9 1 47 123) (ofZ 10) 4 1 true false]
         [])
      (mkUTC 2026 1 19 9 11 47 350) (Fin (ofZ 80)) (getDCTimeInfo (mkDC 4 1))
    = Some s
    /\ Supabase.spike_timestamp s = mkUTC 2026 1 19 9 11 47 350.
Proof.
  eexists. split; [reflexivity |].
  apply (proj1 spike_timestamp_is_a_second_clock_read
           (Supabase.mkDB
              [Supabase.mkReading (mkUTC 2026 1 19 9 1 47 123) (ofZ 10) 4 1
                                  true false]
              [])
           (mkUTC 2026 1 19 9 11 47 350) (Fin (ofZ 80))
           (getDCTimeInfo (mkDC 4 1))).
  reflexivity.
Defined.

(** * Further properties of the collectors *)

(** ** The aggregate stays between the smallest and the largest value *)

Lemma this_ofZ (z : Z) : (this (ofZ z) == inject_Z z)%Q.
Proof. unfold ofZ. apply this_Q2Qc. Qed.

Lemma this_Qcplus (a b : Qc) : (this (a + b)%Qc == this a + this b)%Q.
Proof. unfold Qcplus. apply this_Q2Qc. Qed.

Lemma this_Qcminus (a b : Qc) : (this (a - b)%Qc == this a - this b)%Q.
Proof.
  unfold Qcminus, Qcplus, Qcopp. rewrite !this_Q2Qc. reflexivity.
Qed.

Lemma this_Qcdiv (a b : Qc) : (this (a / b)%Qc == this a / this b)%Q.
Proof.
  unfold Qcdiv, Qcmult, Qcinv. rewrite !this_Q2Qc. reflexivity.
Qed.

Lemma sum_between (xs : list Qc) (lo hi : Qc) :
  Forall (fun x => (lo <= x)%Qc /\ (x <= hi)%Qc) xs ->
  (inject_Z (Z.of_nat (List.length xs)) * this lo
     <= this (fold_right Qcplus 0%Qc xs)
   /\ this (fold_right Qcplus 0%Qc xs)
     <= inject_Z (Z.of_nat (List.length xs)) * this hi)%Q.
Proof.
  induction 1 as [| x xs [Hlo Hhi] _ IH].
  - cbn [List.length fold_right Z.of_nat]. change (inject_Z 0) with 0%Q.
    rewrite !Qmult_0_l. split; apply Qle_refl.
  - cbn [List.length fold_right]. rewrite this_Qcplus.
    rewrite Nat2Z.inj_succ. unfold Z.succ. rewrite inject_Z_plus.
    unfold Qcle in Hlo, Hhi.
    assert (H1 : (inject_Z 1 == 1)%Q) by reflexivity. rewrite H1.
    rewrite !Qmult_plus_distr_l, !Qmult_1_l.
    destruct IH as [IHlo IHhi].
    generalize dependent (inject_Z (Z.of_nat (List.length xs)) * this lo)%Q.
    generalize dependent (inject_Z (Z.of_nat (List.length xs)) * this hi)%Q.
    intros nhi IHhi nlo IHlo. split; lra.
Qed.

Lemma arithmeticMean_between (xs : list Qc) (lo hi : Qc) :
  xs <> [] ->
  Forall (fun x => (lo <= x)%Qc /\ (x <= hi)%Qc) xs ->
  (lo <= arithmeticMean xs)%Qc /\ (arithmeticMean xs <= hi)%Qc.
Proof.
  intros Hne Hall. destruct (sum_between xs lo hi Hall) as [Hlo Hhi].
  unfold arithmeticMean, Qcle. rewrite this_Qcdiv, this_ofZ.
  assert (Hpos : (0 < inject_Z (Z.of_nat (List.length xs)))%Q).
  { rewrite <- (Zlt_Qlt 0). destruct xs; [contradiction | cbn; lia]. }
  split.
  - apply Qle_shift_div_l; [exact Hpos |]. rewrite Qmult_comm. exact Hlo.
  - apply Qle_shift_div_r; [exact Hpos |]. rewrite Qmult_comm. exact Hhi.
Qed.



(** ** Rounding of the stored index *)

Lemma Qfloor_half (n : Z) : Qfloor (inject_Z n + (1 # 2)) = n.
Proof.
  unfold Qfloor, Qplus, inject_Z. cbn [Qnum Qden Pos.mul].
  symmetry. apply (Z.div_unique _ _ _ 1); lia.
Qed.

Lemma Qc_ltb_hundredths (m : Z) :
  Qc_ltb (Q2Qc (inject_Z m / inject_Z 100)) 0 = (m <? 0).
Proof.
  assert (H100 : (inject_Z 100 == 100)%Q) by reflexivity.
  assert (Hinv : (/ 100 == 1 # 100)%Q) by reflexivity.
  destruct (m <? 0) eqn:E.
  - apply Z.ltb_lt in E. apply Qc_ltb_lt. unfold Qclt.
    rewrite !this_Q2Qc. unfold Qdiv. rewrite H100, Hinv.
    rewrite (Zlt_Qlt m 0) in E. change (inject_Z 0) with 0%Q in E. lra.
  - apply Z.ltb_ge in E.
    destruct (Qc_ltb (Q2Qc (inject_Z m / inject_Z 100)) 0) eqn:F; [| reflexivity].
    apply Qc_ltb_lt in F. unfold Qclt in F.
    rewrite !this_Q2Qc in F. unfold Qdiv in F. rewrite H100, Hinv in F.
    rewrite (Zle_Qle 0 m) in E. change (inject_Z 0) with 0%Q in E. lra.
Qed.

Lemma round2_hundredths (m : Z) :
  round2 (Q2Qc (inject_Z m / inject_Z 100)) = Q2Qc (inject_Z m / inject_Z 100).
Proof.
  assert (H100 : (inject_Z 100 == 100)%Q) by reflexivity.
  assert (Hinv : (/ 100 == 1 # 100)%Q) by reflexivity.
  unfold round2. rewrite Qc_ltb_hundredths.
  destruct (m <? 0) eqn:E.
  - apply Z.ltb_lt in E.
    assert (Hfl : Qfloor (Qabs (Q2Qc (inject_Z m / inject_Z 100)) * inject_Z 100
                          + (1 # 2)) = (- m)%Z).
    { rewrite <- (Qfloor_half (- m)). apply Qfloor_comp.
      rewrite this_Q2Qc.
      rewrite Qabs_neg.
      - rewrite inject_Z_opp. unfold Qdiv. rewrite H100, Hinv. ring.
      - unfold Qdiv. rewrite H100, Hinv.
        rewrite (Zlt_Qlt m 0) in E. change (inject_Z 0) with 0%Q in E. lra. }
    rewrite Hfl, Z.opp_involutive. reflexivity.
  - apply Z.ltb_ge in E.
    assert (Hfl : Qfloor (Qabs (Q2Qc (inject_Z m / inject_Z 100)) * inject_Z 100
                          + (1 # 2)) = m).
    { rewrite <- (Qfloor_half m) at 2. apply Qfloor_comp.
      rewrite this_Q2Qc.
      rewrite Qabs_pos.
      - unfold Qdiv. rewrite H100, Hinv. ring.
      - unfold Qdiv. rewrite H100, Hinv.
        rewrite (Zle_Qle 0 m) in E. change (inject_Z 0) with 0%Q in E. lra. }
    rewrite Hfl. reflexivity.
Qed.

Lemma round2_idempotent (q : Qc) : round2 (round2 q) = round2 q.
Proof.
  assert (H : exists m, round2 q = Q2Qc (inject_Z m / inject_Z 100)).
  { unfold round2. destruct (Qc_ltb q 0); eexists; reflexivity. }
  destruct H as [m ->]. apply round2_hundredths.
Qed.


Lemma stored_index_rounding_idem (a : jsnum) : toFixed2 (toFixed2 a) = toFixed2 a.
Proof.
  destruct a as [q | | |]; try reflexivity.
  cbn [toFixed2].
  destruct (Qc_ltb (Q2Qc (Qabs q)) (ofZ (10 ^ 21))) eqn:E.
  - cbn [toFixed2].
    destruct (Qc_ltb (Q2Qc (Qabs (round2 q))) (ofZ (10 ^ 21)));
      [rewrite round2_idempotent |]; reflexivity.
  - cbn [toFixed2]. rewrite E. reflexivity.
Qed.


(** ** A spike is a rise *)

(** X3: the spike rule only fires on a rise of more than 15 points: on
    finite values it implies [index_to - index_from > 15], so a value that
    stays or drops is never a spike; and it never fires when one of the two
    values is [NaN]. *)
Theorem spike_is_a_rise :
  (forall index_from index_to : Qc,
      spikeRule (Fin index_from) (Fin index_to) = true ->
      (index_to - index_from > ofZ 15)%Qc)
  /\ (forall index_from index_to : Qc,
        (index_to <= index_from)%Qc ->
        spikeRule (Fin index_from) (Fin index_to) = false)
  /\ (forall x, spikeRule x NaN = false /\ spikeRule NaN x = false).
Proof.
  assert (H15 : (inject_Z 15 == 15)%Q) by reflexivity.
  assert (H20 : (inject_Z 20 == 20)%Q) by reflexivity.
  assert (H70 : (inject_Z 70 == 70)%Q) by reflexivity.
  assert (H55 : (inject_Z 55 == 55)%Q) by reflexivity.
  assert (Hrise : forall a b : Qc,
             spikeRule (Fin a) (Fin b) = true -> (b - a > ofZ 15)%Qc).
  { intros a b H. apply spikeRule_Fin in H.
    unfold Qclt in *. rewrite this_Qcminus, !this_ofZ in *.
    rewrite H15. rewrite H20, H70, H55 in H.
    destruct H as [H | [H1 H2]]; lra. }
  split; [exact Hrise | split].
  - intros a b Hle.
    destruct (spikeRule (Fin a) (Fin b)) eqn:E; [| reflexivity].
    exfalso. apply Hrise in E. unfold Qclt, Qcle in *.
    rewrite this_Qcminus, this_ofZ, H15 in E. lra.
  - intros [q | | |]; split; unfold spikeRule;
      cbn [JS.sub JS.add JS.neg JS.gt JS.lt orb andb];
      rewrite ?andb_false_r; reflexivity.
Qed.

Lemma spike_is_a_rise_witness :
  (ofZ 71 - ofZ 54 > ofZ 15)%Qc
  /\ spikeRule (Fin (ofZ 80)) (Fin (ofZ 60)) = false.
Proof.
  destruct spike_is_a_rise as (Hrise & Hdrop & _).
  split.
  - apply (Hrise (ofZ 54) (ofZ 71)). reflexivity.
  - apply (Hdrop (ofZ 80) (ofZ 60)). discriminate.
Defined.

(** ** Ticks that do not succeed *)

(** X4: a tick either succeeds or leaves the stored data exactly as it
    was: a skipped or failed run of the flat-file collector does not touch
    the data file, and a skipped or failed run of a database collector
    inserts nothing. *)
Theorem unsuccessful_tick_writes_nothing :
  (forall tk file,
      (exists idx sp, fst (CollectManual.collect tk file) = Success idx sp)
      \/ snd (CollectManual.collect tk file) = file)
  /\ (forall tk db,
        (exists idx sp, fst (Collect.collect tk db) = Success idx sp)
        \/ snd (Collect.collect tk db) = db)
  /\ (forall tk db,
        (exists idx sp, fst (Continuous.collect tk db) = Success idx sp)
        \/ snd (Continuous.collect tk db) = db).
Proof.
  split; [| split].
  - intros tk file.
    destruct (fst (CollectManual.collect tk file)) as [idx sp | | msg] eqn:E.
    + left. exists idx, sp. reflexivity.
    + right. apply ManualFacts.collect_no_write. intros. rewrite E. discriminate.
    + right. apply ManualFacts.collect_no_write. intros. rewrite E. discriminate.
  - intros tk db.
    destruct (fst (Collect.collect tk db)) as [idx sp | | msg] eqn:E.
    + left. exists idx, sp. reflexivity.
    + right. apply CollectorFacts.Collect_no_write. intros. rewrite E.
      discriminate.
    + right. apply CollectorFacts.Collect_no_write. intros. rewrite E.
      discriminate.
  - intros tk db.
    destruct (fst (Continuous.collect tk db)) as [idx sp | | msg] eqn:E.
    + left. exists idx, sp. reflexivity.
    + right. apply CollectorFacts.Continuous_no_write. intros. rewrite E.
      discriminate.
    + right. apply CollectorFacts.Continuous_no_write. intros. rewrite E.
      discriminate.
Qed.

(** X5: a response with [success] false or with missing [data] ends every
    collector with the error [Invalid API response], whatever is stored and
    before anything is read or written; a body whose [data] is not an array
    ends the flat-file collector with [Invalid data array] and the database
    collectors with the TypeError of [data.map]. *)
Theorem invalid_response_is_an_error :
  (forall success data clock dcDate writable file,
      success = false \/ data = DataFalsy ->
      CollectManual.collect
        (CollectManual.mkTick clock (Response success data) dcDate writable) file
      = (Error "Invalid API response", file))
  /\ (forall success data dcDate c1 c2 db,
        success = false \/ data = DataFalsy ->
        Collect.collect (mkDbTick (Response success data) dcDate c1 c2) db
        = (Error "Invalid API response", db)
        /\ Continuous.collect (mkDbTick (Response success data) dcDate c1 c2) db
           = (Error "Invalid API response", db))
  /\ (forall clock dcDate writable file,
        CollectManual.collect
          (CollectManual.mkTick clock (Response true DataNotArray) dcDate writable)
          file
        = (Error "Invalid data array", file))
  /\ (forall dcDate c1 c2 db,
        Collect.collect (mkDbTick (Response true DataNotArray) dcDate c1 c2) db
        = (Error "data.map is not a function", db)
        /\ Continuous.collect (mkDbTick (Response true DataNotArray) dcDate c1 c2) db
           = (Error "data.map is not a function", db)).
Proof.
  split; [| split; [| split]].
  - intros success data clock dcDate writable file [-> | ->].
    + reflexivity.
    + destruct success; reflexivity.
  - intros success data dcDate c1 c2 db [-> | ->].
    + split; reflexivity.
    + destruct success; split; reflexivity.
  - reflexivity.
  - split; reflexivity.
Qed.

Lemma invalid_response_is_an_error_witness :
  CollectManual.collect
    (CollectManual.mkTick (mkUTC 2026 1 19 9 1 47 123)
       (Response false (DataArray [mkLoc (Some (JNum (ofZ 40)))]))
       (mkDC 4 1) true)
    CollectManual.NoFile
  = (Error "Invalid API response", CollectManual.NoFile).
Proof.
  apply (proj1 invalid_response_is_an_error). left. reflexivity.
Defined.

(** X6: a data file that parses as JSON but has no [readings] array is
    never repaired: every tick on it ends in an error and leaves it as it
    is (unlike a file that does not parse, which is replaced). *)
Theorem file_without_readings_blocks_every_tick (tk : CollectManual.Tick) :
  exists msg,
    CollectManual.collect tk CollectManual.WrongShape
    = (Error msg, CollectManual.WrongShape).
Proof.
  unfold CollectManual.collect, CollectManual.run.
  destruct (CollectManual.upstream tk) as [m | success data];
    cbn [checkResponse bind]; [eexists; reflexivity |].
  destruct success; cbn [negb orb]; [| eexists; reflexivity].
  destruct data as [| | locs]; cbn [bind CollectManual.calculateIndex
                                      CollectManual.load];
    eexists; reflexivity.
Qed.

(** X7: with an empty payload the database collectors do not store
    anything: the [NaN] index reaches the insert as [null], the NOT NULL
    column refuses it, and the run ends in an error with the tables
    unchanged. *)
Theorem empty_payload_is_refused_by_the_database :
  forall dcDate c1 c2 db,
    Collect.collect (mkDbTick (Response true (DataArray [])) dcDate c1 c2) db
    = (Error Supabase.not_null_violation, db)
    /\ Continuous.collect (mkDbTick (Response true (DataArray [])) dcDate c1 c2) db
       = (Error Supabase.not_null_violation, db).
Proof. intros dcDate c1 c2 db. split; reflexivity. Qed.

(** ** Invariants of the data file *)

Module FileInvariants.

Import CollectManual ManualFacts.

(** To show that something holds of every file the collector reaches, it
    is enough to look at the successful ticks. *)
Lemma reachable_by_success (P : DataFile -> Prop) :
  P NoFile -> P NotJson ->
  (forall tk file idx sp db',
      reachable file -> P file ->
      collect tk file = (Success idx sp, Stored db') -> P (Stored db')) ->
  forall file, reachable file -> P file.
Proof.
  intros Hno Hbad Hstep file Hr.
  induction Hr as [| | tk file Hr IH]; [exact Hno | exact Hbad |].
  destruct (collect tk file) as [out file'] eqn:E.
  destruct out as [idx sp | | msg].
  - pose proof (collect_success_inv _ _ _ _ _ E) as Hinv.
    destruct Hinv as (locs & db & spk & _ & _ & _ & _ & _ & _ & Hf).
    cbn [snd]. rewrite Hf in E |- *. exact (Hstep _ _ _ _ _ Hr IH E).
  - assert (H : snd (collect tk file) = file).
    { apply collect_no_write. intros. rewrite E. discriminate. }
    rewrite E in H. cbn [snd] in *. rewrite H. exact IH.
  - assert (H : snd (collect tk file) = file).
    { apply collect_no_write. intros. rewrite E. discriminate. }
    rewrite E in H. cbn [snd] in *. rewrite H. exact IH.
Qed.

(** The database a loadable, reachable file gives. *)
Lemma load_reachable (P : Database -> Prop) (file : DataFile) (db : Database) :
  P {| readings := []; spikes := []; lastUpdate := None |} ->
  (forall d, file = Stored d -> P d) ->
  load file = Ok db -> P db.
Proof.
  intros Hempty Hstored Hload.
  destruct file as [| | | d]; cbn [load] in Hload; try discriminate;
    injection Hload as <-; auto.
Qed.

Lemma indexOf_cases (locs : list Location) :
  indexOf locs = NaN \/ exists q, indexOf locs = Fin q.
Proof.
  unfold indexOf. destruct locs as [| loc locs]; [left; reflexivity |].
  right. rewrite popularities_finite.
  eexists. apply mean_finite. discriminate.
Qed.

Lemma toFixed2_cases (locs : list Location) :
  toFixed2 (indexOf locs) = NaN \/ exists q, toFixed2 (indexOf locs) = Fin q.
Proof.
  destruct (indexOf_cases locs) as [-> | [q ->]]; [left; reflexivity |].
  right. cbn [toFixed2]. destruct (Qc_ltb _ _); eexists; reflexivity.
Qed.


Lemma Forall_slice_last {A} (P : A -> Prop) (n : Z) (l : list A) :
  Forall P l -> Forall P (slice_last n l).
Proof.
  intro H. destruct (slice_last_suffix n l) as [ev Hev].
  rewrite Hev in H. apply Forall_app in H. apply H.
Qed.

Lemma newReading_ok (now : UTCTime) (locs : list Location) (d : DCDate) :
  readingOK (newReadingOf (toISOString now) (indexOf locs) (getDCTimeInfo d)).
Proof.
  unfold readingOK. cbn [newReadingOf is_overtime is_weekend dc_hour dc_weekday
                         index_value timestamp getDCTimeInfo hour weekday
                         isOvertime isWeekend].
  split; [reflexivity |]. split; [reflexivity |]. split; [| eexists; reflexivity].
  destruct (toFixed2_cases locs) as [-> | [q Hq]]; [left; reflexivity |].
  right. exists q. rewrite Hq. split; [reflexivity |].
  rewrite <- Hq. apply stored_index_rounding_idem.
Qed.

End FileInvariants.

Module FileInvariantProofs.

Import CollectManual ManualFacts FileInvariants.

Lemma readings_ok (file : DataFile) :
  reachable file -> onStored (fun db => Forall readingOK (readings db)) file.
Proof.
  apply reachable_by_success; [exact I | exact I |].
  intros tk file0 idx sp db' _ IH H. cbn [onStored].
  apply collect_success_inv in H.
  destruct H as (locs & db & spk & _ & Hload & _ & _ & _ & _ & Hf).
  injection Hf as ->. cbn [readings].
  rewrite trimReadings_slice. apply Forall_slice_last.
  apply Forall_app. split.
  - apply (load_reachable (fun d => Forall readingOK (readings d)) file0 db);
      [constructor | | exact Hload].
    intros d ->. exact IH.
  - constructor; [apply newReading_ok | constructor].
Qed.



Lemma lastUpdate_ok (file : DataFile) :
  reachable file ->
  onStored (fun db => readings db <> [] /\ lastUpdate db = lastTs db) file.
Proof.
  apply reachable_by_success; [exact I | exact I |].
  intros tk file0 idx sp db' _ _ H. cbn [onStored].
  pose proof (lastTs_after_success _ _ _ _ _ H) as Hlast.
  apply collect_success_inv in H.
  destruct H as (locs & db & spk & _ & _ & _ & _ & _ & _ & Hf).
  injection Hf as Hf. split.
  - intro Hnil. unfold lastTs in Hlast. rewrite Hnil in Hlast. discriminate.
  - rewrite Hlast. rewrite Hf. reflexivity.
Qed.

End FileInvariantProofs.

(** X8: in every data file the flat-file collector reaches from a missing
    or unreadable one, each stored reading has [is_overtime] true exactly
    for a [dc_hour] from 18 on or below 6 and [is_weekend] true exactly for
    a [dc_weekday] of 0 or 6, an [index_value] that is [null] or already
    rounded to two decimals, and a timestamp printed by [toISOString]. *)
Theorem stored_readings_are_consistent (file : CollectManual.DataFile)
    (db : CollectManual.Database)
    (Hreach : reachable file) (Hfile : file = CollectManual.Stored db) :
  Forall readingOK (CollectManual.readings db).
Proof.
  subst file. exact (FileInvariantProofs.readings_ok _ Hreach).
Qed.


(** X10: in every data file the flat-file collector reaches from a missing
    or unreadable one, there is at least one reading and [lastUpdate] is
    the timestamp of the last reading. *)
Theorem lastUpdate_is_the_last_timestamp (file : CollectManual.DataFile)
    (db : CollectManual.Database)
    (Hreach : reachable file) (Hfile : file = CollectManual.Stored db) :
  CollectManual.readings db <> []
  /\ CollectManual.lastUpdate db = CollectManual.lastTs db.
Proof.
  subst file. exact (FileInvariantProofs.lastUpdate_ok _ Hreach).
Qed.

(** ** Neighbouring readings *)

Module AdjacentFacts.

Import CollectManual ManualFacts FileInvariants.

Lemma toISOString_nonempty (t : UTCTime) : truthy (toISOString t) = true.
Proof.
  unfold toISOString.
  destruct ((0 <=? year t) && (year t <=? 9999)).
  - cbn [pad append truthy]. reflexivity.
  - destruct (year t <? 0); cbn [append truthy]; reflexivity.
Qed.

Lemma substring16_nonempty (s : string) :
  truthy s = true -> substring 0 16 s <> "".
Proof.
  destruct s as [| c s]; [discriminate |]. intros _. cbn [substring]. discriminate.
Qed.

Lemma guard_passed (last : option string) (t : UTCTime) :
  isDuplicate last (toISOString t) = false ->
  forall ts, last = Some ts ->
             substring 0 16 ts <> substring 0 16 (toISOString t).
Proof.
  intros Hdup ts ->. unfold isDuplicate in Hdup.
  apply andb_false_iff in Hdup. destruct Hdup as [Hempty | Hneq].
  - destruct ts as [| c ts]; [| discriminate].
    cbn [substring]. intro H. symmetry in H. revert H.
    apply substring16_nonempty. apply toISOString_nonempty.
  - apply String.eqb_neq. exact Hneq.
Qed.

Lemma last_elt_cons {A} (a b : A) (l : list A) :
  last_elt (a :: b :: l) = last_elt (b :: l).
Proof.
  unfold last_elt. cbn [List.length]. rewrite !Nat.sub_succ, !Nat.sub_0_r.
  reflexivity.
Qed.

Lemma noAdjacentDup_cons (a b : Reading) (l : list Reading) :
  noAdjacentDup (a :: b :: l)
  <-> substring 0 16 (timestamp a) <> substring 0 16 (timestamp b)
      /\ noAdjacentDup (b :: l).
Proof. reflexivity. Qed.

Lemma noAdjacentDup_skipn (k : nat) (l : list Reading) :
  noAdjacentDup l -> noAdjacentDup (skipn k l).
Proof.
  revert l. induction k as [| k IH]; intros l H; [exact H |].
  destruct l as [| a l]; [exact I |]. cbn [skipn]. apply IH.
  destruct l as [| b l]; [exact I |].
  apply noAdjacentDup_cons in H. apply H.
Qed.

Lemma noAdjacentDup_app (l : list Reading) (x : Reading) :
  noAdjacentDup l ->
  (forall r, last_elt l = Some r ->
             substring 0 16 (timestamp r) <> substring 0 16 (timestamp x)) ->
  noAdjacentDup (l ++ [x]).
Proof.
  induction l as [| a l IH]; intros Hl Hlast.
  - cbn. split; exact I.
  - destruct l as [| b l].
    + cbn [app]. apply noAdjacentDup_cons. split; [| split; exact I].
      apply Hlast. reflexivity.
    + apply noAdjacentDup_cons in Hl. destruct Hl as [Hab Htl].
      change ((a :: b :: l) ++ [x])%list with (a :: b :: (l ++ [x]))%list.
      apply noAdjacentDup_cons. split; [exact Hab |].
      change (b :: (l ++ [x]))%list with ((b :: l) ++ [x])%list.
      apply IH; [exact Htl |]. intros r Hr. apply Hlast.
      rewrite last_elt_cons. exact Hr.
Qed.

Lemma adjacent_ok (file : DataFile) :
  reachable file ->
  onStored (fun db => noAdjacentDup (readings db)) file.
Proof.
  apply reachable_by_success; [exact I | exact I |].
  intros tk file0 idx sp db' _ IH H. cbn [onStored].
  apply collect_success_inv in H.
  destruct H as (locs & db & spk & _ & Hload & Hdup & _ & _ & _ & Hf).
  injection Hf as ->. cbn [readings].
  rewrite trimReadings_slice. unfold slice_last. apply noAdjacentDup_skipn.
  apply noAdjacentDup_app.
  - apply (load_reachable (fun d => noAdjacentDup (readings d)) file0 db);
      [exact I | | exact Hload].
    intros d ->. exact IH.
  - intros r Hr. cbn [timestamp newReadingOf].
    apply (guard_passed (lastTs db) (clock tk) Hdup).
    unfold lastTs. rewrite Hr. reflexivity.
Qed.

End AdjacentFacts.

(** X11: in every data file the flat-file collector reaches from a missing
    or unreadable one, no reading is followed by a reading whose timestamp
    has the same first sixteen characters: two neighbours are never of the
    same minute. *)
Theorem neighbours_differ_in_minute (file : CollectManual.DataFile)
    (db : CollectManual.Database)
    (Hreach : reachable file) (Hfile : file = CollectManual.Stored db) :
  noAdjacentDup (CollectManual.readings db).
Proof.
  subst file. exact (AdjacentFacts.adjacent_ok _ Hreach).
Qed.

(** ** A stored [null] index *)

Module NullFacts.

Import CollectManual ManualFacts FileInvariants.



End NullFacts.


(** ** One reading per minute in the database *)

Module MinuteFacts.

Import Supabase DbFacts CollectorFacts.



End MinuteFacts.


(** ** When a database run succeeds *)

Module SuccessFacts.

Import Supabase DbFacts CollectorFacts.



End SuccessFacts.


(** ** The two database collectors side by side *)

(** X15: on the same inputs scripts/collect.js and scripts/continuous.js
    end with the same status (the same index on success, the same message
    on error) and leave the same rows in [pizza_readings]; they can differ
    only in the spike they report and store. *)
Theorem collect_and_continuous_agree (tk : DbTick) (db : Supabase.DB) :
  sameStatus (fst (Collect.collect tk db)) (fst (Continuous.collect tk db))
  /\ Supabase.pizza_readings (snd (Collect.collect tk db))
     = Supabase.pizza_readings (snd (Continuous.collect tk db)).
Proof.
  unfold Collect.collect, Collect.run, Continuous.collect, Continuous.run,
    Continuous.calculateIndex.
  destruct (checkResponse (db_upstream tk)) as [data | m]; cbn [bind];
    [| split; reflexivity].
  destruct (Collect.calculateIndex data) as [index | m]; cbn [bind];
    [| split; reflexivity].
  destruct (Supabase.insertReading _ db) as [code | dbi].
  - destruct (String.eqb code Supabase.unique_violation); split; reflexivity.
  - destruct (Collect.detectSpike dbi _ _ _);
      destruct (Supabase.selectLatest 2 dbi) as [| cur [| prev rest]];
      try destruct (spikeRule _ _); split; reflexivity.
Qed.

(** ** When a flat-file tick succeeds *)



(** ** The serverless handler *)


(** ** Sample runs *)

Lemma sampleFile_reachable : reachable sampleFile.
Proof.
  unfold sampleFile. apply reachable_tick. apply reachable_tick.
  apply reachable_NoFile.
Qed.

Lemma stored_readings_are_consistent_witness :
  exists db, sampleFile = CollectManual.Stored db
             /\ Forall readingOK (CollectManual.readings db).
Proof.
  eexists. split; [reflexivity |].
  apply (stored_readings_are_consistent sampleFile _ sampleFile_reachable). reflexivity.
Defined.


Lemma lastUpdate_is_the_last_timestamp_witness :
  exists db, sampleFile = CollectManual.Stored db
             /\ CollectManual.readings db <> []
                /\ CollectManual.lastUpdate db = CollectManual.lastTs db.
Proof.
  eexists. split; [reflexivity |].
  apply (lastUpdate_is_the_last_timestamp sampleFile _ sampleFile_reachable). reflexivity.
Defined.

Lemma neighbours_differ_in_minute_witness :
  exists db, sampleFile = CollectManual.Stored db
             /\ noAdjacentDup (CollectManual.readings db).
Proof.
  eexists. split; [reflexivity |].
  apply (neighbours_differ_in_minute sampleFile _ sampleFile_reachable). reflexivity.
Defined.






(** ** The check of the Node version *)

Module NodeVersionFacts.

Import NodeVersion.









End NodeVersionFacts.



(** ** The forecast view *)

Module ViewFacts.

Import Supabase Views.

Lemma insert_desc_length (r : Reading) (l : list Reading) :
  List.length (insert_desc r l) = S (List.length l).
Proof.
  induction l as [| x l IH]; cbn [insert_desc List.length]; [reflexivity |].
  destruct (time_ltb (timestamp x) (timestamp r)); cbn [List.length];
    [reflexivity | rewrite IH; reflexivity].
Qed.

Lemma order_desc_length (rows : list Reading) :
  List.length (order_desc rows) = List.length rows.
Proof.
  induction rows as [| r rows IH]; [reflexivity |].
  unfold order_desc in *. cbn [fold_right List.length].
  rewrite insert_desc_length, IH. reflexivity.
Qed.

Lemma this_Qcmult (a b : Qc) : (this (a * b)%Qc == this a * this b)%Q.
Proof. unfold Qcmult. apply this_Q2Qc. Qed.

Lemma combined_between (a b c lo hi : Qc) :
  (lo <= a)%Qc -> (a <= hi)%Qc -> (lo <= b)%Qc -> (b <= hi)%Qc ->
  (lo <= c)%Qc -> (c <= hi)%Qc ->
  exists f, combined (Some a) (Some b) (Some c) = Some f
            /\ (lo <= f)%Qc /\ (f <= hi)%Qc.
Proof.
  intros Ha1 Ha2 Hb1 Hb2 Hc1 Hc2. eexists. split; [reflexivity |].
  unfold Qcle in *. rewrite !this_Qcplus, !this_Qcmult, !this_Q2Qc.
  split; lra.
Qed.

Lemma overallAvg_between (rows : list Reading) (lo hi : Qc) :
  rows <> [] ->
  (forall r, In r rows -> (lo <= index_value r)%Qc /\ (index_value r <= hi)%Qc) ->
  exists g, overallAvg rows = Some g /\ (lo <= g)%Qc /\ (g <= hi)%Qc.
Proof.
  intros Hne Hall.
  exists (arithmeticMean (map index_value rows)). split.
  - unfold overallAvg, arithmeticMean. rewrite length_map.
    destruct rows; [contradiction | reflexivity].
  - apply arithmeticMean_between.
    + destruct rows; [contradiction | discriminate].
    + apply Forall_forall. intros x Hx. apply in_map_iff in Hx.
      destruct Hx as (r & <- & Hr). apply Hall. exact Hr.
Qed.

End ViewFacts.

(** X19: the view [readings_with_forecast] has one row per reading, and in
    each row the combined forecast, 0.6 of the hourly average plus 0.3 of
    the weekday average plus 0.1 of the average of all readings, lies
    between [lo] and [hi] whenever the two pattern averages of the row and
    every stored index do; it is NULL as soon as the hourly or the weekday
    average of the row is. *)
Theorem combined_forecast_between (db : Supabase.DB)
    (hourly_patterns weekday_patterns : list Views.Pattern) :
  List.length (Views.readings_with_forecast db hourly_patterns weekday_patterns)
  = List.length (Supabase.pizza_readings db)
  /\ (forall row lo hi a b,
        In row (Views.readings_with_forecast db hourly_patterns weekday_patterns) ->
        (forall r, In r (Supabase.pizza_readings db) ->
                   (lo <= Supabase.index_value r)%Qc
                   /\ (Supabase.index_value r <= hi)%Qc) ->
        Views.hourly_forecast row = Some a -> (lo <= a)%Qc -> (a <= hi)%Qc ->
        Views.weekday_forecast row = Some b -> (lo <= b)%Qc -> (b <= hi)%Qc ->
        exists f, Views.combined_forecast row = Some f
                  /\ (lo <= f)%Qc /\ (f <= hi)%Qc)
  /\ (forall row,
        In row (Views.readings_with_forecast db hourly_patterns weekday_patterns) ->
        Views.hourly_forecast row = None \/ Views.weekday_forecast row = None ->
        Views.combined_forecast row = None).
Proof.
  split; [| split].
  - unfold Views.readings_with_forecast.
    rewrite length_map. apply ViewFacts.order_desc_length.
  - intros row lo hi a b Hin Hall Ha Ha1 Ha2 Hb Hb1 Hb2.
    unfold Views.readings_with_forecast in Hin. apply in_map_iff in Hin.
    destruct Hin as (r & <- & Hr).
    cbn [Views.hourly_forecast Views.weekday_forecast Views.combined_forecast]
      in *.
    assert (Hne : Supabase.pizza_readings db <> []).
    { intro Hnil. rewrite Hnil in Hr. exact Hr. }
    destruct (ViewFacts.overallAvg_between _ lo hi Hne Hall)
      as (g & Hg & Hg1 & Hg2).
    rewrite Ha, Hb, Hg. apply ViewFacts.combined_between; assumption.
  - intros row Hin Hnull.
    unfold Views.readings_with_forecast in Hin. apply in_map_iff in Hin.
    destruct Hin as (r & <- & Hr).
    cbn [Views.hourly_forecast Views.weekday_forecast Views.combined_forecast]
      in *.
    destruct Hnull as [-> | ->]; [reflexivity |].
    destruct (Views.column Views.avg_index _); reflexivity.
Qed.

Lemma combined_forecast_between_witness :
  exists f,
    map Views.combined_forecast
      (Views.readings_with_forecast
         (Supabase.mkDB
            [Supabase.mkReading (mkUTC 2026 1 19 9 1 47 123) (ofZ 10)
                                4 1 true false] [])
         [Views.mkPattern 4 (Some (ofZ 30)) (Some (ofZ 15))]
         [Views.mkPattern 1 (Some (ofZ 30)) (Some (ofZ 15))])
    = [Some f]
    /\ (ofZ 0 <= f)%Qc /\ (f <= ofZ 100)%Qc.
Proof.
  destruct (proj1 (proj2 (combined_forecast_between
              (Supabase.mkDB
                 [Supabase.mkReading (mkUTC 2026 1 19 9 1 47 123) (ofZ 10)
                                     4 1 true false] [])
              [Views.mkPattern 4 (Some (ofZ 30)) (Some (ofZ 15))]
              [Views.mkPattern 1 (Some (ofZ 30)) (Some (ofZ 15))]))
            _ (ofZ 0) (ofZ 100) (ofZ 30) (ofZ 30)
            (or_introl eq_refl)
            ltac:(intros r [<- | []]; split; discriminate)
            eq_refl ltac:(discriminate) ltac:(discriminate)
            eq_refl ltac:(discriminate) ltac:(discriminate))
    as (f & Hf & Hlo & Hhi).
  exists f. split; [| split; assumption].
  exact (f_equal (fun x => [x]) Hf).
Defined.

(** ** What scripts/continuous.js compares *)



